(** * internal/metrics/update.go: the metrics worker of the queue manager

    A shallow embedding of [makeKey], [initialiseMetrics], [updateMetrics],
    [doConnect] and [processMetrics], and the properties of the registry
    they maintain.

    Conventions.
    - A Go [error] is an [option string]: [None] is [nil], [Some msg] an
      error whose text is [msg].
    - An [int64] sample is a [Z]; no arithmetic is done on samples here.
    - [float64] is an abstract type: values of that type are only produced
      by [mqmetric.Normalise] and stored.
    - A Go map is a [gmap]; a [nil] map reads like the empty map.
    - [map[string]*metricData]: every pointer stored by [initialiseMetrics]
      is the address of a variable declared inside the loop body, hence a
      fresh allocation per entry. No two keys alias, and the map of pointers
      is represented by the map of the records pointed to. A write through
      the pointer found under a key is an update of that key; a key that is
      absent yields the [nil] pointer, and the write through it panics. *)

From Stdlib Require Import ZArith String Ascii.
From stdpp Require Import gmap strings pretty.

Local Open Scope Z_scope.

(** ** The collaborator's catalog (package mqmetric) *)

Definition error := option string.

(** Modelled from the spec: the declarations of [mqmetric.MonClass],
    [mqmetric.MonType] and [mqmetric.MonElement] are not part of this
    package. The catalog is the nested collection classes, types, elements;
    only the fields read by update.go are kept. The parent links of an
    element are pointers; [link] is what the code reads through them. *)
Module MonClass.
Record link := { Name : string }.
End MonClass.

Module MonType.
Record link := { Name : string; Parent : MonClass.link }.
End MonType.

Module MonElement.
Record t := {
  MetricName : string;
  Description : string;
  Parent : MonType.link;
  Values : gmap string Z
}.
End MonElement.

Record MonTypeT := { ObjectTopic : string; Elements : list MonElement.t }.
Record MonClassT := { Types : list MonTypeT }.

(** [mqmetric.Metrics.Classes], in the order in which [range] visits it.
    Where the collaborator keeps classes, types and elements in Go maps the
    order of a visit is not fixed; a list stands for the order of the visit
    at hand. *)
Abbreviation Catalog := (list MonClassT).

(** [strings.Contains] *)
Fixpoint Contains (s substr : string) : bool :=
  String.prefix substr s ||
  match s with
  | EmptyString => false
  | String _ s' => Contains s' substr
  end.

Definition parameterised (metricType : MonTypeT) : bool :=
  Contains (ObjectTopic metricType) "%s".

(** makeKey builds a unique key for each metric *)
Definition makeKey (metricElement : MonElement.t) : string :=
  metricElement.(MonElement.Parent).(MonType.Parent).(MonClass.Name) +:+ "/" +:+
  metricElement.(MonElement.Parent).(MonType.Name) +:+ "/" +:+
  metricElement.(MonElement.MetricName).

(** The elements visited by the three nested loops of [initialiseMetrics] and
    [updateMetrics], in the order of the visit. *)
Definition typeElements (metricType : MonTypeT) : list MonElement.t :=
  if parameterised metricType then [] else Elements metricType.

Definition nonParamElements (Classes : Catalog) : list MonElement.t :=
  metricClass ← Classes; metricType ← Types metricClass; typeElements metricType.

(** Every element of the catalog, parameterised types included. *)
Definition allElements (Classes : Catalog) : list MonElement.t :=
  metricClass ← Classes; metricType ← Types metricClass; Elements metricType.

Definition clearCache (metricElement : MonElement.t) : MonElement.t :=
  {| MonElement.MetricName := metricElement.(MonElement.MetricName);
     MonElement.Description := metricElement.(MonElement.Description);
     MonElement.Parent := metricElement.(MonElement.Parent);
     MonElement.Values := ∅ |}.

(** A loop over a list of pointers whose body may panic: the state is
    threaded through, the objects pointed to are rebuilt. *)
Fixpoint forEach {S A} (body : S → A → option (S * A)) (s : S) (l : list A)
    : option (S * list A) :=
  match l with
  | [] => Some (s, [])
  | x :: l' =>
      match body s x with
      | None => None
      | Some (s1, x') =>
          match forEach body s1 l' with
          | None => None
          | Some (s2, l'') => Some (s2, x' :: l'')
          end
      end
  end.

Section Metrics.
Variable float64 : Type.
(** [mqmetric.Normalise] *)
Variable Normalise : MonElement.t → string → Z → float64.

(** ** The registry *)

Record metricData := {
  name : string;
  description : string;
  objectType : bool;
  values : option (gmap string float64)   (* [None]: the nil map *)
}.

Local Abbreviation Registry := (gmap string metricData).

Definition setValues (metric : metricData) (v : gmap string float64) : metricData :=
  {| name := name metric; description := description metric;
     objectType := objectType metric; values := Some v |}.

(** The label/value pairs held by a [values] field; a nil map has none. *)
Definition valuesOf (metric : metricData) : gmap string float64 :=
  default ∅ (values metric).

(** *** initialiseMetrics *)

Record initState := {
  i_metrics : Registry;
  i_validMetrics : bool;
  i_log : list string       (* lines written by log.Errorf, oldest first *)
}.

Definition newMetric (metricElement : MonElement.t) : metricData :=
  {| name := metricElement.(MonElement.MetricName);
     description := metricElement.(MonElement.Description);
     objectType := false;
     values := None |}.

(** Lines 124-134, the body of the innermost loop. *)
Definition initElement (st : initState) (metricElement : MonElement.t) : initState :=
  let metric := newMetric metricElement in
  let key := makeKey metricElement in
  match i_metrics st !! key with
  | None =>
      {| i_metrics := <[key := metric]> (i_metrics st);
         i_validMetrics := i_validMetrics st;
         i_log := i_log st |}
  | Some _ =>
      {| i_metrics := i_metrics st;
         i_validMetrics := false;
         i_log := i_log st ++ ["Metrics Error: Found duplicate metric key " +:+ key] |}
  end.

Definition initType (st : initState) (metricType : MonTypeT) : initState :=
  if negb (Contains (ObjectTopic metricType) "%s")
  then foldl initElement st (Elements metricType)
  else st.

Definition initClass (st : initState) (metricClass : MonClassT) : initState :=
  foldl initType st (Types metricClass).

Definition initLoops (Classes : Catalog) : initState :=
  foldl initClass
    {| i_metrics := ∅; i_validMetrics := true; i_log := [] |} Classes.

(** initialiseMetrics sets initial details for all available metrics.
    The result is the pair returned by the Go function and the lines it
    logged. *)
Definition initialiseMetrics (Classes : Catalog) : (Registry * error) * list string :=
  let st := initLoops Classes in
  if negb (i_validMetrics st)
  then ((i_metrics st, Some "Invalid metrics data - found duplicate metric keys"), i_log st)
  else ((i_metrics st, None), i_log st).

(** *** updateMetrics *)

(** Lines 159-162: the fresh map filled from the cached publication data. *)
Definition normalisedValues (metricElement : MonElement.t) : gmap string float64 :=
  map_fold (λ label value acc, <[label := Normalise metricElement label value]> acc)
           ∅ metricElement.(MonElement.Values).

(** Lines 154-165, the body of the innermost loop. [None] is the panic of
    the write through a nil [*metricData]. *)
Definition updateElement (metrics : Registry) (metricElement : MonElement.t)
    : option (Registry * MonElement.t) :=
  match metrics !! makeKey metricElement with
  | None => None
  | Some metric =>
      Some (<[makeKey metricElement := setValues metric (normalisedValues metricElement)]> metrics,
            clearCache metricElement)
  end.

Definition updateType (metrics : Registry) (metricType : MonTypeT)
    : option (Registry * MonTypeT) :=
  if negb (Contains (ObjectTopic metricType) "%s")
  then
    match forEach updateElement metrics (Elements metricType) with
    | None => None
    | Some (metrics', elements') =>
        Some (metrics', {| ObjectTopic := ObjectTopic metricType; Elements := elements' |})
    end
  else Some (metrics, metricType).

Definition updateClass (metrics : Registry) (metricClass : MonClassT)
    : option (Registry * MonClassT) :=
  match forEach updateType metrics (Types metricClass) with
  | None => None
  | Some (metrics', types') => Some (metrics', {| Types := types' |})
  end.

(** updateMetrics updates values for all available metrics. The result is
    the registry and the catalog after the call, [None] when it panics. *)
Definition updateMetrics (metrics : Registry) (Classes : Catalog)
    : option (Registry * Catalog) :=
  forEach updateClass metrics Classes.

(** *** What a call of updateMetrics amounts to *)

(** The registry holds the key of every element of a list. *)
Definition covers (metrics : Registry) (l : list MonElement.t) : Prop :=
  Forall (λ metricElement, is_Some (metrics !! makeKey metricElement)) l.

(** The write of one element's normalised samples into its entry. *)
Definition refresh (metrics : Registry) (metricElement : MonElement.t) : Registry :=
  alter (λ metric, setValues metric (normalisedValues metricElement))
        (makeKey metricElement) metrics.

Definition clearType (metricType : MonTypeT) : MonTypeT :=
  if parameterised metricType then metricType
  else {| ObjectTopic := ObjectTopic metricType;
          Elements := clearCache <$> Elements metricType |}.

Definition clearClass (metricClass : MonClassT) : MonClassT :=
  {| Types := clearType <$> Types metricClass |}.

(** The catalog once the cache of every visited element is reset. *)
Definition clearCaches (Classes : Catalog) : Catalog := clearClass <$> Classes.

(** ** doConnect *)

(** What the collaborator answers during one call of [doConnect]. *)
Record connection := {
  InitConnectionStats : error;
  DiscoverAndSubscribe : error;   (* called only when the former is nil *)
  discovered : Catalog            (* mqmetric.Metrics.Classes after discovery *)
}.

Definition doConnect (qmName : string) (c : connection) : error :=
  match InitConnectionStats c with
  | Some err =>
      Some ("Failed to connect to queue manager " +:+ qmName +:+ ": " +:+ err)
  | None =>
      match DiscoverAndSubscribe c with
      | Some err => Some ("Failed to discover and subscribe to metrics: " +:+ err)
      | None => None
      end
  end.

(** The catalog after [doConnect]: discovery is not reached when the
    connection itself fails. *)
Definition catalogAfter (Classes : Catalog) (c : connection) : Catalog :=
  match InitConnectionStats c with
  | Some _ => Classes
  | None => discovered c
  end.

(** ** processMetrics *)

Definition requestTimeout : Z := 10.

(** Modelled from the spec: [mqmetric.ProcessPublications] is not part of
    this package. One round of it populates the per-element sample caches
    and may return an error; it leaves the shape of the catalog alone.
    [cache] gives the samples an element holds after the round. *)
Definition storeElement (cache : MonElement.t → gmap string Z)
    (metricElement : MonElement.t) : MonElement.t :=
  {| MonElement.MetricName := metricElement.(MonElement.MetricName);
     MonElement.Description := metricElement.(MonElement.Description);
     MonElement.Parent := metricElement.(MonElement.Parent);
     MonElement.Values := cache metricElement |}.

Definition storeType (cache : MonElement.t → gmap string Z)
    (metricType : MonTypeT) : MonTypeT :=
  {| ObjectTopic := ObjectTopic metricType;
     Elements := storeElement cache <$> Elements metricType |}.

Definition storePublications (cache : MonElement.t → gmap string Z)
    (Classes : Catalog) : Catalog :=
  (λ metricClass, {| Types := storeType cache <$> Types metricClass |}) <$> Classes.

(** What the worker is handed by the rest of the system, one item per
    point at which it waits for or reads something it does not own. *)
Inductive Event :=
| KeepRunning (b : bool)        (* the value of keepRunning read at line 77 *)
| Connect (c : connection)      (* the collaborator's answers to doConnect *)
| Publications (err : error) (cache : MonElement.t → gmap string Z)
                                (* one round of ProcessPublications *)
| Request (collect : bool)      (* the select receives from requestChannel *)
| Timeout.                      (* the select's time.After fires first *)

(** What the worker does, in order. *)
Inductive Action :=
| TestKeepRunning (b : bool)
| CallDoConnect (err : error)
| WgDone
| CallInitialiseMetrics
| LogErrorf (line : string)
| LogDebugf (line : string)
| CallProcessPublications (err : error)
| Receive (collect : bool)              (* collect := <-requestChannel *)
| CallUpdateMetrics
| Send (metrics : Registry)             (* responseChannel <- metrics *)
| Panic
| EndConnection
| Sleep (seconds : Z)
| Return.

Inductive Location :=
| AtLoopTest         (* line 77 *)
| AtConnect          (* line 78 *)
| AtPublications     (* line 91 *)
| AtSelect           (* line 94 *)
| Returned
| Panicked.

(** The package variable [first], the locals [err] and [metrics] of
    [processMetrics], and the collaborator's catalog. *)
Record Worker := {
  pc : Location;
  first : bool;
  err : error;
  metrics : Registry;
  catalog : Catalog
}.

Definition goto (l : Location) (w : Worker) : Worker :=
  {| pc := l; first := first w; err := err w; metrics := metrics w;
     catalog := catalog w |}.

(** [var first = true]; [var err error]; [var metrics map[string]*metricData] *)
Definition start : Worker :=
  {| pc := AtLoopTest; first := true; err := None; metrics := ∅; catalog := [] |}.

(** Lines 78-85. *)
Definition connectStmt (qmName : string) (w : Worker) (c : connection)
    : Worker * list Action :=
  match doConnect qmName c with
  | None =>
      let '(metrics', _, logged) := initialiseMetrics (catalogAfter (catalog w) c) in
      ({| pc := pc w; first := false; err := None; metrics := metrics';
          catalog := catalogAfter (catalog w) c |},
       [CallDoConnect None] ++ (if first w then [WgDone] else []) ++
       [CallInitialiseMetrics] ++ (LogErrorf <$> logged))
  | Some e =>
      ({| pc := pc w; first := first w; err := Some e; metrics := metrics w;
          catalog := catalogAfter (catalog w) c |},
       [CallDoConnect (Some e)])
  end.

(** Line 88 and, when the test fails, lines 104-110. *)
Definition innerLoopTest (w : Worker) : Worker * list Action :=
  match err w with
  | None => (goto AtPublications w, [])
  | Some e =>
      (goto AtLoopTest w,
       [LogErrorf ("Metrics Error: " +:+ e); EndConnection; Sleep 10])
  end.

(** Line 91. *)
Definition publicationsStmt (w : Worker) (e : error)
    (cache : MonElement.t → gmap string Z) : Worker * list Action :=
  ({| pc := AtSelect; first := first w; err := e; metrics := metrics w;
      catalog := storePublications cache (catalog w) |},
   [CallProcessPublications e]).

(** Lines 94-102. The send on the unbuffered [responseChannel] completes
    when the caller receives. *)
Definition selectStmt (w : Worker) (ev : Event) : option (Worker * list Action) :=
  match ev with
  | Request collect =>
      if collect then
        match updateMetrics (metrics w) (catalog w) with
        | None => Some (goto Panicked w, [Receive true; CallUpdateMetrics; Panic])
        | Some (metrics', Classes') =>
            Some ({| pc := pc w; first := first w; err := err w;
                     metrics := metrics'; catalog := Classes' |},
                  [Receive true; CallUpdateMetrics; Send metrics'])
        end
      else Some (w, [Receive false; Send (metrics w)])
  | Timeout =>
      Some (w, [LogDebugf ("Metrics: No requests received within timeout period (" +:+
                           pretty requestTimeout +:+ " seconds)")])
  | _ => None
  end.

(** One step of [processMetrics]: from one point at which the worker reads
    from its surroundings to the next. [None]: the event is not the one
    the worker is waiting for. *)
Definition step (qmName : string) (w : Worker) (ev : Event)
    : option (Worker * list Action) :=
  match pc w, ev with
  | AtLoopTest, KeepRunning true => Some (goto AtConnect w, [TestKeepRunning true])
  | AtLoopTest, KeepRunning false =>
      Some (goto Returned w, [TestKeepRunning false; Return])
  | AtConnect, Connect c =>
      let '(w1, acts1) := connectStmt qmName w c in
      let '(w2, acts2) := innerLoopTest w1 in
      Some (w2, acts1 ++ acts2)
  | AtPublications, Publications e cache => Some (publicationsStmt w e cache)
  | AtSelect, _ =>
      match selectStmt w ev with
      | None => None
      | Some (w1, acts1) =>
          match pc w1 with
          | Panicked => Some (w1, acts1)
          | _ =>
              let '(w2, acts2) := innerLoopTest w1 in
              Some (w2, acts1 ++ acts2)
          end
      end
  | _, _ => None
  end.

(** processMetrics processes publications of metric data and handles
    describe/collect requests. The run of the worker from [w] against a
    script of events, with the actions it performs. *)
Fixpoint runFrom (qmName : string) (w : Worker) (script : list Event)
    : option (Worker * list Action) :=
  match script with
  | [] => Some (w, [])
  | ev :: script' =>
      match step qmName w ev with
      | None => None
      | Some (w1, acts1) =>
          match runFrom qmName w1 script' with
          | None => None
          | Some (w2, acts2) => Some (w2, acts1 ++ acts2)
          end
      end
  end.

(** While a connection is being served, the registry holds the key of
    every element the updater visits. *)
Definition ready (w : Worker) : Prop :=
  match pc w with
  | AtPublications | AtSelect => covers (metrics w) (nonParamElements (catalog w))
  | _ => True
  end.

(** What the worker has done so far ends with the teardown of a
    connection, unless it has done nothing yet. *)
Definition backedOff (history : list Action) : Prop :=
  history = [] ∨ ∃ before, history = before ++ [EndConnection; Sleep 10].

(** What has been done so far, as far as the place of the worker tells. *)
Definition historyAt (w : Worker) (history : list Action) : Prop :=
  match pc w with
  | AtLoopTest => backedOff history
  | AtConnect =>
      ∃ before, history = before ++ [TestKeepRunning true] ∧ backedOff before
  | _ => True
  end.

Definition processMetrics (qmName : string) (script : list Event)
    : option (Worker * list Action) :=
  runFrom qmName start script.

(** What has been done so far includes a [doConnect] that returned nil, and
    no [EndConnection] after it. *)
Definition connectedAfter (history : list Action) : Prop :=
  ∃ before since,
    history = before ++ CallDoConnect None :: since ∧ EndConnection ∉ since.

(** Between the connection and its teardown the worker is in the inner loop. *)
Definition servingAt (w : Worker) (history : list Action) : Prop :=
  match pc w with
  | AtPublications | AtSelect => connectedAfter history
  | _ => True
  end.

End Metrics.

Arguments name {float64} _.
Arguments description {float64} _.
Arguments objectType {float64} _.
Arguments values {float64} _.
Arguments Build_metricData {float64} _ _ _ _.
Arguments setValues {float64} _ _.
Arguments valuesOf {float64} _.
Arguments newMetric {float64} _.
Arguments i_metrics {float64} _.
Arguments i_validMetrics {float64} _.
Arguments i_log {float64} _.
Arguments Build_initState {float64} _ _ _.
Arguments initElement {float64} _ _.
Arguments initType {float64} _ _.
Arguments initClass {float64} _ _.
Arguments initLoops {float64} _.
Arguments initialiseMetrics {float64} _.
Arguments normalisedValues {float64} _ _.
Arguments updateElement {float64} _ _ _.
Arguments updateType {float64} _ _ _.
Arguments updateClass {float64} _ _ _.
Arguments updateMetrics {float64} _ _ _.
Arguments covers {float64} _ _.
Arguments refresh {float64} _ _ _.
Arguments TestKeepRunning {float64} _.
Arguments CallDoConnect {float64} _.
Arguments WgDone {float64}.
Arguments CallInitialiseMetrics {float64}.
Arguments LogErrorf {float64} _.
Arguments LogDebugf {float64} _.
Arguments CallProcessPublications {float64} _.
Arguments Receive {float64} _.
Arguments CallUpdateMetrics {float64}.
Arguments Send {float64} _.
Arguments Panic {float64}.
Arguments EndConnection {float64}.
Arguments Sleep {float64} _.
Arguments Return {float64}.
Arguments pc {float64} _.
Arguments first {float64} _.
Arguments err {float64} _.
Arguments metrics {float64} _.
Arguments catalog {float64} _.
Arguments Build_Worker {float64} _ _ _ _ _.
Arguments goto {float64} _ _.
Arguments start {float64}.
Arguments connectStmt {float64} _ _ _.
Arguments innerLoopTest {float64} _.
Arguments publicationsStmt {float64} _ _ _.
Arguments selectStmt {float64} _ _ _.
Arguments step {float64} _ _ _ _.
Arguments runFrom {float64} _ _ _ _.
Arguments processMetrics {float64} _ _ _.
Arguments ready {float64} _.
Arguments backedOff {float64} _.
Arguments historyAt {float64} _ _.
Arguments connectedAfter {float64} _.
Arguments servingAt {float64} _ _.

(** A name in which the separator of [makeKey] does not occur. *)
Fixpoint slashFree (s : string) : bool :=
  match s with
  | EmptyString => true
  | String c s' => negb (Ascii.eqb c "/"%char) && slashFree s'
  end.

(** ** Sample data *)

Definition cpuClass : MonClass.link := {| MonClass.Name := "CPU" |}.

Definition systemSummary : MonType.link :=
  {| MonType.Name := "SystemSummary"; MonType.Parent := cpuClass |}.

Definition statqClass : MonClass.link := {| MonClass.Name := "STATQ" |}.

Definition statqPut : MonType.link :=
  {| MonType.Name := "PUT"; MonType.Parent := statqClass |}.

Definition userCPU : MonElement.t :=
  {| MonElement.MetricName := "User CPU time percentage";
     MonElement.Description := "User CPU time percentage";
     MonElement.Parent := systemSummary;
     MonElement.Values := {[ "a" := 10; "b" := 20 ]} |}.

Definition ramFree : MonElement.t :=
  {| MonElement.MetricName := "RAM free percentage";
     MonElement.Description := "RAM free percentage";
     MonElement.Parent := systemSummary;
     MonElement.Values := ∅ |}.

(** An element whose key is that of [userCPU]. *)
Definition userCPUAgain : MonElement.t :=
  {| MonElement.MetricName := "User CPU time percentage";
     MonElement.Description := "User CPU time - percentage estimate";
     MonElement.Parent := systemSummary;
     MonElement.Values := {[ "c" := 5 ]} |}.

Definition putCount : MonElement.t :=
  {| MonElement.MetricName := "MQPUT count";
     MonElement.Description := "MQPUT/MQPUT1 count";
     MonElement.Parent := statqPut;
     MonElement.Values := ∅ |}.

Definition summaryTopic : string := "$SYS/MQ/INFO/QMGR/QM1/Monitor/CPU/SystemSummary".
Definition putTopic : string := "$SYS/MQ/INFO/QMGR/QM1/Monitor/STATQ/%s/PUT".

(** No parameterised type, no two elements with one key. *)
Definition plainCatalog : Catalog :=
  [ {| Types := [ {| ObjectTopic := summaryTopic; Elements := [userCPU; ramFree] |} ] |} ].

(** A parameterised type next to a plain one. *)
Definition mixedCatalog : Catalog :=
  [ {| Types := [ {| ObjectTopic := summaryTopic; Elements := [userCPU; ramFree] |} ] |};
    {| Types := [ {| ObjectTopic := putTopic; Elements := [putCount] |} ] |} ].

(** Two elements with one key. *)
Definition clashCatalog : Catalog :=
  [ {| Types := [ {| ObjectTopic := summaryTopic;
                     Elements := [userCPU; ramFree; userCPUAgain] |} ] |} ].

(** A normalisation that hands the raw sample on. *)
Definition rawSample : MonElement.t → string → Z → Z := λ _ _ value, value.

Definition connected (Classes : Catalog) : connection :=
  {| InitConnectionStats := None; DiscoverAndSubscribe := None; discovered := Classes |}.

Definition refused : connection :=
  {| InitConnectionStats := Some "MQRC_Q_MGR_NOT_AVAILABLE";
     DiscoverAndSubscribe := None; discovered := [] |}.

(** A round of publications that leaves every cache as it is. *)
Definition noNews : MonElement.t → gmap string Z := MonElement.Values.

(** A connection is made and one round of publications has been drained. *)
Definition servingScript : list Event :=
  [KeepRunning true; Connect (connected mixedCatalog); Publications None noNews].

(** A refused attempt, a connection that is lost, and a reconnection. *)
Definition reconnectScript : list Event :=
  [KeepRunning true; Connect refused;
   KeepRunning true; Connect (connected mixedCatalog);
   Publications (Some "MQRC_CONNECTION_BROKEN") noNews; Timeout;
   KeepRunning true; Connect (connected plainCatalog);
   Publications None noNews; Request false].

(** The drain fails while a caller is waiting with a request. *)
Definition brokenScript : list Event :=
  [KeepRunning true; Connect (connected plainCatalog);
   Publications (Some "MQRC_CONNECTION_BROKEN") noNews; Request true].

(** Two elements with different names and one key: the separator occurs
    in a name. *)
Definition diskRead : MonElement.t :=
  {| MonElement.MetricName := "bytes";
     MonElement.Description := "Log - bytes read";
     MonElement.Parent :=
       {| MonType.Name := "Log/read"; MonType.Parent := {| MonClass.Name := "DISK" |} |};
     MonElement.Values := ∅ |}.

Definition diskLogRead : MonElement.t :=
  {| MonElement.MetricName := "read/bytes";
     MonElement.Description := "Log - bytes read";
     MonElement.Parent :=
       {| MonType.Name := "Log"; MonType.Parent := {| MonClass.Name := "DISK" |} |};
     MonElement.Values := ∅ |}.

(** Discovery fails after the connection was made. *)
Definition undiscovered : connection :=
  {| InitConnectionStats := None;
     DiscoverAndSubscribe := Some "MQRC_NOT_AUTHORIZED"; discovered := [] |}.

(** The worker is told to stop while it serves a connection; the
    connection is lost later. *)
Definition stopScript : list Event :=
  [KeepRunning true; Connect (connected mixedCatalog);
   Publications None noNews; Request true;
   Publications None noNews; Timeout;
   Publications (Some "MQRC_CONNECTION_BROKEN") noNews; Timeout;
   KeepRunning false].

(** ** Properties of the registry builder *)

Section Properties.
Context {float64 : Type} (Normalise : MonElement.t → string → Z → float64).

Local Abbreviation Registry := (gmap string (metricData float64)).
Local Abbreviation initState' := (initState float64).

Lemma foldl_bind {A B S} (f : S → B → S) (g : A → list B) (l : list A) (s : S) :
  foldl f s (l ≫= g) = foldl (λ s a, foldl f s (g a)) s l.
Proof.
  revert s. induction l as [|a l IH]; intros s; [done|].
  rewrite bind_cons, foldl_app. apply IH.
Qed.

Lemma initType_flat (st : initState') (metricType : MonTypeT) :
  initType st metricType = foldl initElement st (typeElements metricType).
Proof.
  unfold initType, typeElements, parameterised.
  by destruct (Contains (ObjectTopic metricType) "%s").
Qed.

Lemma initLoops_flat (Classes : Catalog) :
  initLoops (float64:=float64) Classes =
  foldl initElement {| i_metrics := ∅; i_validMetrics := true; i_log := [] |}
        (nonParamElements Classes).
Proof.
  unfold initLoops, nonParamElements. rewrite foldl_bind.
  generalize ({| i_metrics := (∅ : Registry); i_validMetrics := true; i_log := [] |}).
  induction Classes as [|c cs IH]; intros st; [done|]. simpl. rewrite <- IH. f_equal.
  unfold initClass. rewrite foldl_bind. generalize st. clear.
  induction (Types c) as [|t ts IH]; intros st; [done|].
  simpl. rewrite <- IH. by rewrite initType_flat.
Qed.

Lemma initElement_keep (st : initState') e k m :
  i_metrics st !! k = Some m → i_metrics (initElement st e) !! k = Some m.
Proof.
  intros Hk. unfold initElement.
  destruct (i_metrics st !! makeKey e) eqn:He; simpl; [done|].
  rewrite lookup_insert_ne; [done|]. intros Heq. rewrite Heq in He. congruence.
Qed.

Lemma init_keep (l : list MonElement.t) (st : initState') k m :
  i_metrics st !! k = Some m → i_metrics (foldl initElement st l) !! k = Some m.
Proof.
  revert st. induction l as [|e l IH]; intros st Hk; [done|].
  simpl. apply IH. by apply initElement_keep.
Qed.

Lemma initElement_dom (st : initState') e :
  dom (i_metrics (initElement st e)) = dom (i_metrics st) ∪ {[ makeKey e ]}.
Proof.
  clear Normalise.
  unfold initElement. destruct (i_metrics st !! makeKey e) eqn:He; simpl.
  - assert (makeKey e ∈ dom (i_metrics st)) by (apply elem_of_dom; eauto).
    set_solver.
  - rewrite dom_insert_L. set_solver.
Qed.

Lemma init_dom (l : list MonElement.t) (st : initState') :
  dom (i_metrics (foldl initElement st l)) =
  dom (i_metrics st) ∪ list_to_set (makeKey <$> l).
Proof.
  clear Normalise.
  revert st. induction l as [|e l IH]; intros st; simpl.
  - set_solver.
  - rewrite IH, initElement_dom. set_solver.
Qed.

Lemma init_first (l : list MonElement.t) (st : initState') e :
  i_metrics st !! makeKey e = None →
  i_metrics (foldl initElement st (e :: l)) !! makeKey e = Some (newMetric e).
Proof.
  intros He. simpl. apply init_keep. unfold initElement. rewrite He. simpl.
  apply lookup_insert_eq.
Qed.

Lemma init_invalid_stays (l : list MonElement.t) (st : initState') :
  i_validMetrics st = false → i_validMetrics (foldl initElement st l) = false.
Proof.
  revert st. induction l as [|e l IH]; intros st Hv; [done|].
  simpl. apply IH. unfold initElement.
  by destruct (i_metrics st !! makeKey e).
Qed.

Lemma init_log_grows (l : list MonElement.t) (st : initState') line :
  line ∈ i_log st → line ∈ i_log (foldl initElement st l).
Proof.
  revert st. induction l as [|e l IH]; intros st Hl; [done|].
  simpl. apply IH. unfold initElement.
  destruct (i_metrics st !! makeKey e); simpl; [|done].
  apply elem_of_app. by left.
Qed.

Lemma init_clash (l : list MonElement.t) (st : initState') e :
  is_Some (i_metrics st !! makeKey e) →
  i_validMetrics (foldl initElement st (e :: l)) = false ∧
  ("Metrics Error: Found duplicate metric key " +:+ makeKey e)
    ∈ i_log (foldl initElement st (e :: l)).
Proof.
  intros [m Hm]. simpl. split.
  - apply init_invalid_stays. unfold initElement. by rewrite Hm.
  - apply init_log_grows. unfold initElement. rewrite Hm. simpl.
    apply elem_of_app. right. by apply list_elem_of_singleton.
Qed.

Lemma init_valid (l : list MonElement.t) (st : initState') :
  i_validMetrics st = true →
  NoDup (makeKey <$> l) →
  (∀ e, e ∈ l → i_metrics st !! makeKey e = None) →
  i_validMetrics (foldl initElement st l) = true.
Proof.
  revert st. induction l as [|e l IH]; intros st Hv Hnd Hfresh; [done|].
  simpl. rewrite fmap_cons in Hnd. apply NoDup_cons in Hnd as [Hnotin Hnd].
  assert (He : i_metrics st !! makeKey e = None) by (apply Hfresh; left).
  apply IH; [| done |].
  - unfold initElement. by rewrite He.
  - intros e' He'. unfold initElement. rewrite He. simpl.
    rewrite lookup_insert_ne; [apply Hfresh; by right|].
    intros Heq. apply Hnotin. apply list_elem_of_fmap. eauto.
Qed.

Lemma init_values_nil (l : list MonElement.t) (st : initState') :
  (∀ k m, i_metrics st !! k = Some m → values m = None) →
  ∀ k m, i_metrics (foldl initElement st l) !! k = Some m → values m = None.
Proof.
  revert st. induction l as [|e l IH]; intros st Hst; [done|].
  simpl. apply IH. intros k m. unfold initElement.
  destruct (i_metrics st !! makeKey e) eqn:He; simpl; [apply Hst|].
  rewrite lookup_insert. case_decide; [|apply Hst].
  by intros [= <-].
Qed.

(** ** Properties of the updater *)

Lemma makeKey_clearCache e : makeKey (clearCache e) = makeKey e.
Proof. done. Qed.

Lemma normalisedValues_lookup e (label : string) :
  normalisedValues Normalise e !! label =
  Normalise e label <$> (MonElement.Values e !! label).
Proof.
  unfold normalisedValues. revert label.
  apply (map_fold_weak_ind
           (λ (r : gmap string float64) (m : gmap string Z),
              ∀ label, r !! label = Normalise e label <$> m !! label)).
  - intros label. by rewrite !lookup_empty.
  - intros i x m r Hi IH label. rewrite !lookup_insert.
    case_decide; [by subst|apply IH].
Qed.

Lemma normalisedValues_cleared e : normalisedValues Normalise (clearCache e) = ∅.
Proof. apply map_eq. intros l. by rewrite normalisedValues_lookup. Qed.

Lemma refresh_lookup (m : Registry) e k :
  refresh Normalise m e !! k =
  if decide (makeKey e = k)
  then (λ metric, setValues metric (normalisedValues Normalise e)) <$> m !! k
  else m !! k.
Proof. unfold refresh. rewrite lookup_alter. case_decide; by subst. Qed.

Lemma refresh_is_Some (m : Registry) e k :
  is_Some (refresh Normalise m e !! k) ↔ is_Some (m !! k).
Proof.
  rewrite refresh_lookup. case_decide; [|done]. by rewrite fmap_is_Some.
Qed.

Lemma foldl_refresh_is_Some (l : list MonElement.t) (m : Registry) k :
  is_Some (foldl (refresh Normalise) m l !! k) ↔ is_Some (m !! k).
Proof.
  revert m. induction l as [|e l IH]; intros m; [done|].
  simpl. by rewrite IH, refresh_is_Some.
Qed.

Lemma covers_foldl_refresh (l es : list MonElement.t) (m : Registry) :
  covers (foldl (refresh Normalise) m es) l ↔ covers m l.
Proof.
  unfold covers. rewrite !Forall_forall.
  split; intros H e He.
  - apply (foldl_refresh_is_Some es m). by apply H.
  - apply (foldl_refresh_is_Some es m). by apply H.
Qed.

Lemma covers_keys (m : Registry) (l1 l2 : list MonElement.t) :
  makeKey <$> l1 = makeKey <$> l2 → covers m l1 → covers m l2.
Proof.
  unfold covers. intros Hk H1.
  apply (Forall_fmap makeKey (λ k, is_Some (m !! k))). rewrite <- Hk.
  by apply (Forall_fmap makeKey (λ k, is_Some (m !! k))).
Qed.

Lemma updateElement_ok (m : Registry) e :
  covers m [e] →
  updateElement Normalise m e = Some (foldl (refresh Normalise) m [e], clearCache e).
Proof.
  intros Hc. apply Forall_cons in Hc as [[metric Hm] _].
  unfold updateElement. rewrite Hm. simpl. do 2 f_equal.
  apply map_eq. intros k. rewrite refresh_lookup, lookup_insert.
  case_decide; [subst; by rewrite Hm|done].
Qed.

Lemma updateElement_covers (m : Registry) e r :
  updateElement Normalise m e = Some r → covers m [e].
Proof.
  unfold updateElement. destruct (m !! makeKey e) eqn:Hm; [|done].
  intros _. apply Forall_cons. split; [by eexists|constructor].
Qed.

(** A loop whose body refreshes the elements below one item refreshes the
    elements below every item of the list. *)
Section Lift.
Context {A : Type} (body : Registry → A → option (Registry * A)).
Context (below : A → list MonElement.t) (after : A → A).
Hypothesis body_ok : ∀ m a,
  covers m (below a) →
  body m a = Some (foldl (refresh Normalise) m (below a), after a).
Hypothesis body_covers : ∀ m a r, body m a = Some r → covers m (below a).

Lemma forEach_ok (l : list A) (m : Registry) :
  covers m (l ≫= below) →
  forEach body m l = Some (foldl (refresh Normalise) m (l ≫= below), after <$> l).
Proof.
  revert m. induction l as [|a l IH]; intros m Hc; [done|].
  rewrite bind_cons in Hc |- *. apply Forall_app in Hc as [Ha Hl].
  cbn [forEach]. rewrite body_ok by done.
  rewrite IH by by apply covers_foldl_refresh.
  by rewrite foldl_app.
Qed.

Lemma forEach_covers (l : list A) (m : Registry) r :
  forEach body m l = Some r → covers m (l ≫= below).
Proof.
  revert m r. induction l as [|a l IH]; intros m r; [intros _; constructor|].
  cbn [forEach]. destruct (body m a) as [[m1 a']|] eqn:Hb; [|done].
  pose proof (body_covers _ _ _ Hb) as Ha.
  rewrite body_ok in Hb by done. injection Hb as <- <-.
  destruct (forEach body _ l) as [[m2 l']|] eqn:Hl; [|done].
  intros _. rewrite bind_cons. apply Forall_app. split; [done|].
  eapply covers_foldl_refresh, IH, Hl.
Qed.
End Lift.

Lemma bind_singleton {A} (l : list A) : l ≫= (λ x, [x]) = l.
Proof. induction l as [|x l IH]; [done|]. by rewrite bind_cons, IH. Qed.

Lemma updateType_ok (m : Registry) t :
  covers m (typeElements t) →
  updateType Normalise m t =
  Some (foldl (refresh Normalise) m (typeElements t), clearType t).
Proof.
  unfold updateType, typeElements, clearType, parameterised.
  destruct (Contains (ObjectTopic t) "%s"); simpl; [done|].
  intros Hc.
  rewrite (forEach_ok (updateElement Normalise) (λ e, [e]) clearCache updateElement_ok)
    by by rewrite bind_singleton.
  by rewrite bind_singleton.
Qed.

Lemma updateType_covers (m : Registry) t r :
  updateType Normalise m t = Some r → covers m (typeElements t).
Proof.
  unfold updateType, typeElements, parameterised.
  destruct (Contains (ObjectTopic t) "%s"); simpl; [intros _; constructor|].
  destruct (forEach _ m (Elements t)) as [[m1 es]|] eqn:Hf; [|done].
  intros _.
  eapply (forEach_covers (updateElement Normalise) (λ e, [e]) clearCache
            updateElement_ok updateElement_covers) in Hf.
  by rewrite bind_singleton in Hf.
Qed.

Lemma updateClass_ok (m : Registry) c :
  covers m (Types c ≫= typeElements) →
  updateClass Normalise m c =
  Some (foldl (refresh Normalise) m (Types c ≫= typeElements), clearClass c).
Proof.
  intros Hc. unfold updateClass.
  by rewrite (forEach_ok (updateType Normalise) typeElements clearType updateType_ok).
Qed.

Lemma updateClass_covers (m : Registry) c r :
  updateClass Normalise m c = Some r → covers m (Types c ≫= typeElements).
Proof.
  unfold updateClass.
  destruct (forEach _ m (Types c)) as [[m1 ts]|] eqn:Hf; [|done].
  intros _.
  by eapply (forEach_covers (updateType Normalise) typeElements clearType
               updateType_ok updateType_covers) in Hf.
Qed.

Lemma updateMetrics_ok (m : Registry) (Classes : Catalog) :
  covers m (nonParamElements Classes) →
  updateMetrics Normalise m Classes =
  Some (foldl (refresh Normalise) m (nonParamElements Classes), clearCaches Classes).
Proof.
  intros Hc. unfold updateMetrics, clearCaches.
  by rewrite (forEach_ok (updateClass Normalise) (λ c, Types c ≫= typeElements)
                clearClass updateClass_ok).
Qed.

Lemma updateMetrics_covers (m : Registry) (Classes : Catalog) r :
  updateMetrics Normalise m Classes = Some r → covers m (nonParamElements Classes).
Proof.
  intros Hf.
  by eapply (forEach_covers (updateClass Normalise) (λ c, Types c ≫= typeElements)
               clearClass updateClass_ok updateClass_covers) in Hf.
Qed.

Lemma typeElements_clearType t :
  typeElements (clearType t) = clearCache <$> typeElements t.
Proof.
  unfold typeElements, clearType, parameterised.
  destruct (Contains (ObjectTopic t) "%s") eqn:Ht; simpl; by rewrite ?Ht.
Qed.

Lemma nonParamElements_clearCaches (Classes : Catalog) :
  nonParamElements (clearCaches Classes) = clearCache <$> nonParamElements Classes.
Proof.
  unfold nonParamElements, clearCaches.
  induction Classes as [|c cs IH]; [done|].
  rewrite fmap_cons, !bind_cons, fmap_app, IH. f_equal.
  unfold clearClass. simpl. clear.
  induction (Types c) as [|t ts IH]; [done|].
  by rewrite fmap_cons, !bind_cons, fmap_app, IH, typeElements_clearType.
Qed.

Lemma keys_clearCache (l : list MonElement.t) :
  makeKey <$> (clearCache <$> l) = makeKey <$> l.
Proof. rewrite <- list_fmap_compose. by apply list_fmap_ext. Qed.

Lemma typeElements_storeType cache t :
  typeElements (storeType cache t) = storeElement cache <$> typeElements t.
Proof.
  unfold typeElements, storeType, parameterised. simpl.
  by destruct (Contains (ObjectTopic t) "%s").
Qed.

Lemma nonParamElements_store cache (Classes : Catalog) :
  nonParamElements (storePublications cache Classes) =
  storeElement cache <$> nonParamElements Classes.
Proof.
  unfold nonParamElements, storePublications.
  induction Classes as [|c cs IH]; [done|].
  rewrite fmap_cons, !bind_cons, fmap_app, IH. f_equal. simpl. clear.
  induction (Types c) as [|t ts IH]; [done|].
  by rewrite fmap_cons, !bind_cons, fmap_app, IH, typeElements_storeType.
Qed.

Lemma keys_storeElement cache (l : list MonElement.t) :
  makeKey <$> (storeElement cache <$> l) = makeKey <$> l.
Proof. rewrite <- list_fmap_compose. by apply list_fmap_ext. Qed.

Lemma foldl_refresh_other (l : list MonElement.t) (m : Registry) k :
  k ∉ makeKey <$> l → foldl (refresh Normalise) m l !! k = m !! k.
Proof.
  revert m. induction l as [|e l IH]; intros m Hk; [done|].
  rewrite fmap_cons in Hk. apply not_elem_of_cons in Hk as [Hne Hk].
  simpl. rewrite IH by done. rewrite refresh_lookup.
  case_decide; [congruence|done].
Qed.

(** The entry of an element holds that element's samples unless a later
    element of the visit has the same key. *)
Lemma refreshed_last (l1 l2 : list MonElement.t) e (m : Registry) :
  makeKey e ∉ makeKey <$> l2 →
  is_Some (m !! makeKey e) →
  ∃ metric, foldl (refresh Normalise) m (l1 ++ e :: l2) !! makeKey e = Some metric
            ∧ values metric = Some (normalisedValues Normalise e).
Proof.
  intros Hl2 Hm. rewrite foldl_app. simpl.
  rewrite foldl_refresh_other by done. rewrite refresh_lookup.
  rewrite decide_True by done.
  apply (foldl_refresh_is_Some l1) in Hm as [metric ->].
  by eexists.
Qed.

Lemma refreshed_uniform (l : list MonElement.t) (m : Registry) v e :
  (∀ e', e' ∈ l → normalisedValues Normalise e' = v) →
  e ∈ l →
  is_Some (m !! makeKey e) →
  ∃ metric, foldl (refresh Normalise) m l !! makeKey e = Some metric
            ∧ values metric = Some v.
Proof.
  induction l as [|x l IH] using rev_ind; intros Hv He Hm.
  - by apply elem_of_nil in He.
  - rewrite foldl_app. simpl. rewrite refresh_lookup.
    destruct (decide (makeKey x = makeKey e)) as [Heq|Hne].
    + apply (foldl_refresh_is_Some l) in Hm as [metric ->].
      eexists. split; [done|]. simpl. f_equal. apply Hv.
      apply elem_of_app. right. by apply list_elem_of_singleton.
    + apply elem_of_app in He as [He|He].
      * apply IH; [|done..]. intros e' He'. apply Hv, elem_of_app. by left.
      * apply list_elem_of_singleton in He. by subst.
Qed.

(** ** Properties of the worker *)

Lemma initialiseMetrics_covers (Classes : Catalog) :
  covers (initialiseMetrics (float64:=float64) Classes).1.1 (nonParamElements Classes).
Proof.
  clear Normalise.
  assert (Hd : dom (i_metrics (initLoops (float64:=float64) Classes))
               = list_to_set (makeKey <$> nonParamElements Classes)).
  { rewrite initLoops_flat, init_dom. simpl. set_solver. }
  unfold covers. apply Forall_forall. intros e He.
  apply elem_of_dom.
  replace (initialiseMetrics Classes).1.1 with (i_metrics (initLoops (float64:=float64) Classes)).
  - rewrite Hd. apply elem_of_list_to_set, list_elem_of_fmap. eauto.
  - unfold initialiseMetrics. by destruct (negb _).
Qed.

Lemma innerLoopTest_ready (w : Worker float64) :
  covers (metrics w) (nonParamElements (catalog w)) → ready (innerLoopTest w).1.
Proof.
  intros Hc. unfold innerLoopTest, ready. by destruct (err w).
Qed.

Lemma step_ready qmName (w w' : Worker float64) ev acts :
  ready w → step Normalise qmName w ev = Some (w', acts) → ready w'.
Proof.
  intros Hr. unfold step.
  destruct (pc w) eqn:Hpc; destruct ev as [[]|c|e cache|collect|]; try done.
  - intros [= <- _]. by unfold ready.
  - intros [= <- _]. by unfold ready.
  - destruct (connectStmt qmName w c) as [w1 acts1] eqn:Hc.
    destruct (innerLoopTest w1) as [w2 acts2] eqn:Hl.
    intros [= <- _]. unfold connectStmt in Hc.
    destruct (doConnect qmName c).
    + injection Hc as <- _. unfold innerLoopTest in Hl. simpl in Hl.
      by injection Hl as <- _.
    + destruct (initialiseMetrics _) as [[m0 e0] lg] eqn:Hi.
      injection Hc as <- _.
      replace w2 with (innerLoopTest
        {| pc := pc w; first := false; err := None; metrics := m0;
           catalog := catalogAfter (catalog w) c |}).1 by by rewrite Hl.
      apply innerLoopTest_ready. simpl.
      replace m0 with (initialiseMetrics (float64:=float64)
                         (catalogAfter (catalog w) c)).1.1 by by rewrite Hi.
      apply initialiseMetrics_covers.
  - intros [= <- _]. unfold ready in *. rewrite Hpc in Hr. simpl.
    rewrite nonParamElements_store.
    eapply covers_keys; [|exact Hr]. by rewrite keys_storeElement.
  - unfold ready in Hr. rewrite Hpc in Hr.
    unfold selectStmt. destruct collect.
    + rewrite updateMetrics_ok by done. simpl. rewrite Hpc.
      destruct (innerLoopTest _) as [w2 acts2] eqn:Hl.
      intros [= <- _].
      match type of Hl with innerLoopTest ?x = _ =>
        replace w2 with (innerLoopTest x).1 by by rewrite Hl end.
      apply innerLoopTest_ready. simpl.
      rewrite nonParamElements_clearCaches.
      apply covers_foldl_refresh.
      eapply covers_keys; [|exact Hr]. by rewrite keys_clearCache.
    + rewrite Hpc.
      destruct (innerLoopTest w) as [w2 acts2] eqn:Hl.
      intros [= <- _].
      replace w2 with (innerLoopTest w).1 by by rewrite Hl.
      by apply innerLoopTest_ready.
  - simpl. rewrite Hpc.
    destruct (innerLoopTest w) as [w2 acts2] eqn:Hl.
    intros [= <- _].
    replace w2 with (innerLoopTest w).1 by by rewrite Hl.
    apply innerLoopTest_ready. unfold ready in Hr. by rewrite Hpc in Hr.
Qed.

Lemma runFrom_ready qmName script (w w' : Worker float64) trace :
  ready w → runFrom Normalise qmName w script = Some (w', trace) → ready w'.
Proof.
  revert w trace. induction script as [|ev script IH]; intros w trace Hr.
  - by intros [= <- _].
  - simpl. destruct (step Normalise qmName w ev) as [[w1 acts1]|] eqn:Hs; [|done].
    destruct (runFrom Normalise qmName w1 script) as [[w2 acts2]|] eqn:Hrun; [|done].
    intros [= <- _]. eapply IH; [|exact Hrun]. by eapply step_ready.
Qed.

Lemma runFrom_app qmName s1 s2 (w : Worker float64) :
  runFrom Normalise qmName w (s1 ++ s2) =
  match runFrom Normalise qmName w s1 with
  | None => None
  | Some (w1, t1) =>
      match runFrom Normalise qmName w1 s2 with
      | None => None
      | Some (w2, t2) => Some (w2, t1 ++ t2)
      end
  end.
Proof.
  revert w. induction s1 as [|ev s1 IH]; intros w; simpl.
  - by destruct (runFrom Normalise qmName w s2) as [[? ?]|].
  - destruct (step Normalise qmName w ev) as [[w1 acts1]|]; [|done].
    rewrite IH. destruct (runFrom Normalise qmName w1 s1) as [[w2 t2]|]; [|done].
    destruct (runFrom Normalise qmName w2 s2) as [[w3 t3]|]; [|done].
    by rewrite app_assoc.
Qed.

Lemma initialiseMetrics_loops (Classes : Catalog) :
  (initialiseMetrics (float64:=float64) Classes).1.1 =
  i_metrics (foldl initElement
               {| i_metrics := ∅; i_validMetrics := true; i_log := [] |}
               (nonParamElements Classes)).
Proof.
  clear Normalise.
  unfold initialiseMetrics. rewrite initLoops_flat. by destruct (negb _).
Qed.

Lemma no_parameterised_all (Classes : Catalog) :
  (∀ metricClass metricType,
     metricClass ∈ Classes → metricType ∈ Types metricClass →
     Contains (ObjectTopic metricType) "%s" = false) →
  nonParamElements Classes = allElements Classes.
Proof.
  unfold nonParamElements, allElements.
  induction Classes as [|c cs IH]; intros Hno; [done|].
  rewrite !bind_cons, IH.
  - f_equal. assert (Hc : ∀ t, t ∈ Types c → Contains (ObjectTopic t) "%s" = false).
    { intros t Ht. apply (Hno c t); [by left|done]. }
    clear -Hc. induction (Types c) as [|t ts IHt]; [done|].
    rewrite !bind_cons, IHt.
    + f_equal. unfold typeElements, parameterised. rewrite Hc; [done|by left].
    + intros t' Ht'. apply Hc. by right.
  - intros c' t Hc' Ht. apply (Hno c' t); [by right|done].
Qed.

(** C2: for a catalog in which no type's topic contains the wildcard "%s"
    and no two elements have the same derived key, [initialiseMetrics]
    returns a registry whose key set is exactly the set of the strings
    grandparent name + "/" + parent name + "/" + metric name over all
    elements of the catalog, together with a nil error. *)
Theorem initialiseMetrics_key_set (Classes : Catalog) :
  (∀ metricClass metricType,
     metricClass ∈ Classes → metricType ∈ Types metricClass →
     Contains (ObjectTopic metricType) "%s" = false) →
  NoDup (makeKey <$> allElements Classes) →
  dom (initialiseMetrics (float64:=float64) Classes).1.1 =
    list_to_set
      ((λ e, e.(MonElement.Parent).(MonType.Parent).(MonClass.Name) +:+ "/" +:+
             e.(MonElement.Parent).(MonType.Name) +:+ "/" +:+
             e.(MonElement.MetricName)) <$> allElements Classes)
  ∧ (initialiseMetrics (float64:=float64) Classes).1.2 = None.
Proof.
  clear Normalise.
  intros Hno Hnd. apply no_parameterised_all in Hno. split.
  - rewrite initialiseMetrics_loops, init_dom, Hno. simpl.
    change (λ e, _) with makeKey. set_solver.
  - unfold initialiseMetrics. rewrite initLoops_flat, Hno.
    rewrite init_valid; [done..|]. intros e _. apply lookup_empty.
Qed.

(** C3: for a catalog in which two visited (non-parameterised) elements
    have the same derived key, [initialiseMetrics] returns a non-nil error,
    the entry under that key is the definition of the element visited
    first, the collision is logged, and the registry returned still has an
    entry for the key of every visited element. *)
Theorem initialiseMetrics_first_writer_wins
    (Classes : Catalog) (before between after : list MonElement.t)
    (earlier later : MonElement.t) :
  nonParamElements Classes = before ++ earlier :: between ++ later :: after →
  makeKey later = makeKey earlier →
  makeKey earlier ∉ makeKey <$> before →
  let '(metrics, err, logged) := initialiseMetrics (float64:=float64) Classes in
  err = Some "Invalid metrics data - found duplicate metric keys"
  ∧ metrics !! makeKey earlier =
      Some {| name := earlier.(MonElement.MetricName);
              description := earlier.(MonElement.Description);
              objectType := false; values := None |}
  ∧ ("Metrics Error: Found duplicate metric key " +:+ makeKey earlier) ∈ logged
  ∧ dom metrics = list_to_set (makeKey <$> nonParamElements Classes).
Proof.
  clear Normalise.
  intros Hsplit Hkey Hfirst.
  pose proof (initialiseMetrics_loops Classes) as Hm.
  unfold initialiseMetrics in *. rewrite initLoops_flat in *.
  set (st0 := {| i_metrics := (∅ : Registry); i_validMetrics := true; i_log := [] |}) in *.
  assert (Hearlier : i_metrics (foldl initElement st0 (before ++ [earlier]))
                       !! makeKey earlier = Some (newMetric earlier)).
  { rewrite foldl_app. apply (init_first []).
    apply not_elem_of_dom. rewrite init_dom. simpl.
    rewrite not_elem_of_union, elem_of_list_to_set. split; [set_solver|done]. }
  assert (Hrest : nonParamElements Classes
                  = (before ++ [earlier]) ++ between ++ later :: after).
  { rewrite Hsplit. by rewrite <- app_assoc. }
  assert (Hclash :
    i_validMetrics (foldl initElement st0 (nonParamElements Classes)) = false ∧
    ("Metrics Error: Found duplicate metric key " +:+ makeKey earlier)
      ∈ i_log (foldl initElement st0 (nonParamElements Classes))).
  { rewrite Hrest, !foldl_app. rewrite <- Hkey. apply init_clash.
    rewrite Hkey. exists (newMetric earlier). apply init_keep.
    by rewrite <- foldl_app. }
  destruct Hclash as [Hinvalid Hlog]. rewrite Hinvalid. simpl.
  split; [done|]. split; [|split; [done|]].
  - rewrite Hrest, foldl_app. by apply init_keep.
  - rewrite init_dom. simpl. set_solver.
Qed.

(** C10: every entry made by [initialiseMetrics] has a nil, hence empty,
    [values] map; and as long as no request asked for a refresh, every
    registry the worker sends on the response channel has only entries
    with a nil [values] map. *)
Theorem values_nil_until_first_update qmName :
  (∀ (Classes : Catalog) key metric,
     (initialiseMetrics (float64:=float64) Classes).1.1 !! key = Some metric →
     values metric = None ∧ valuesOf metric = ∅)
  ∧ (∀ script w trace sent key metric,
       processMetrics Normalise qmName script = Some (w, trace) →
       Request true ∉ script →
       Send sent ∈ trace →
       sent !! key = Some metric →
       values metric = None ∧ valuesOf metric = ∅).
Proof.
  assert (Hinit : ∀ (Classes : Catalog) key metric,
     (initialiseMetrics (float64:=float64) Classes).1.1 !! key = Some metric →
     values metric = None).
  { intros Classes key metric. rewrite initialiseMetrics_loops.
    apply init_values_nil. intros k m. simpl. by rewrite lookup_empty. }
  split.
  { intros Classes key metric H. apply Hinit in H. unfold valuesOf. by rewrite H. }
  assert (Hnil : ∀ metric : metricData float64,
            values metric = None → values metric = None ∧ valuesOf metric = ∅).
  { intros metric H. unfold valuesOf. by rewrite H. }
  unfold processMetrics.
  assert (Hstart : ∀ k m, metrics (start (float64:=float64)) !! k = Some m → values m = None).
  { intros k m. simpl. by rewrite lookup_empty. }
  generalize dependent (start (float64:=float64)).
  intros w0 Hw0 script. revert w0 Hw0.
  induction script as [|ev script IH]; intros w0 Hw0 w trace sent key metric.
  { intros [= <- <-] _ Hin. by apply elem_of_nil in Hin. }
  simpl. destruct (step Normalise qmName w0 ev) as [[w1 acts1]|] eqn:Hs; [|done].
  destruct (runFrom Normalise qmName w1 script) as [[w2 acts2]|] eqn:Hrun; [|done].
  intros [= <- <-] Hno Hin Hk.
  apply not_elem_of_cons in Hno as [Hev Hno].
  assert (Hstep : (∀ k m, metrics w1 !! k = Some m → values m = None) ∧
                  (∀ r, Send r ∈ acts1 → r = metrics w1)).
  { clear -Hs Hw0 Hev Hinit. unfold step, publicationsStmt, selectStmt in Hs.
    destruct (pc w0) eqn:Hpc; destruct ev as [[]|c|e cache|[]|]; try done;
      simplify_eq/=.
    - split; [done|]. intros r Hr. set_solver.
    - split; [done|]. intros r Hr. set_solver.
    - unfold connectStmt, innerLoopTest in Hs.
      destruct (doConnect qmName c); simplify_eq/=.
      + split; [done|]. intros r Hr. set_solver.
      + destruct (initialiseMetrics _) as [[m0 e0] lg] eqn:Hi. simplify_eq/=.
        split.
        * intros k m Hm. apply (Hinit (catalogAfter (catalog w0) c) k).
          by rewrite Hi.
        * intros r Hr. rewrite app_nil_r in Hr.
          apply elem_of_cons in Hr as [?|Hr]; [done|].
          apply elem_of_app in Hr as [Hr|Hr]; [by destruct (first w0); set_solver|].
          apply elem_of_cons in Hr as [?|Hr]; [done|].
          apply list_elem_of_fmap in Hr as (? & ? & ?). done.
    - split; [done|]. intros r Hr. set_solver.
    - rewrite Hpc in Hs. unfold innerLoopTest in Hs.
      destruct (err w0); simplify_eq/=; (split; [done|]); intros r Hr; set_solver.
    - rewrite Hpc in Hs. unfold innerLoopTest in Hs.
      destruct (err w0); simplify_eq/=; (split; [done|]); intros r Hr; set_solver. }
  destruct Hstep as [Hw1 Hsent].
  apply elem_of_app in Hin as [Hin|Hin].
  - apply Hnil. apply Hsent in Hin. subst sent. by eapply Hw1.
  - by eapply (IH w1 Hw1).
Qed.

(** C4: when [updateMetrics] is called twice in succession, nothing being
    cached in between, the first call resets the cache of every visited
    element, the second call returns as well, and after it the entry of
    every visited (non-parameterised) element has an empty [values] map.
    The calls are made on a registry that holds the key of every visited
    element, which is when a call returns at all. *)
Theorem updateMetrics_twice (registry : Registry) (Classes : Catalog) :
  covers registry (nonParamElements Classes) →
  ∃ registry1 Classes1 registry2 Classes2,
    updateMetrics Normalise registry Classes = Some (registry1, Classes1)
    ∧ (∀ e, e ∈ nonParamElements Classes1 → MonElement.Values e = ∅)
    ∧ updateMetrics Normalise registry1 Classes1 = Some (registry2, Classes2)
    ∧ (∀ e, e ∈ nonParamElements Classes →
         ∃ metric, registry2 !! makeKey e = Some metric ∧ values metric = Some ∅).
Proof.
  intros Hc.
  assert (Hc1 : covers (foldl (refresh Normalise) registry (nonParamElements Classes))
                       (nonParamElements (clearCaches Classes))).
  { rewrite nonParamElements_clearCaches. apply covers_foldl_refresh.
    eapply covers_keys; [|exact Hc]. by rewrite keys_clearCache. }
  eexists _, _, _, _. split; [by apply updateMetrics_ok|].
  split; [|split; [by apply updateMetrics_ok|]].
  - intros e. rewrite nonParamElements_clearCaches.
    intros (e0 & -> & _)%list_elem_of_fmap. done.
  - intros e He. rewrite nonParamElements_clearCaches.
    rewrite <- (makeKey_clearCache e).
    apply refreshed_uniform.
    + intros e' (e0 & -> & _)%list_elem_of_fmap. apply normalisedValues_cleared.
    + apply list_elem_of_fmap. eauto.
    + rewrite makeKey_clearCache. apply foldl_refresh_is_Some.
      unfold covers in Hc. rewrite Forall_forall in Hc. by apply Hc.
Qed.

(** C5, amended: take a registry that holds the key of every visited
    element, and a visited element with the cached samples {a:10, b:20}
    whose key no element visited later shares. If normalisation hands the
    sample on unchanged, then a call of [updateMetrics] returns, the
    [values] map of the element's entry is exactly {a:10, b:20} whatever it
    was before, and the element's cache is empty afterwards. *)
Theorem updateMetrics_round_trip
    (registry : Registry) (Classes : Catalog)
    (before after : list MonElement.t) (e : MonElement.t)
    (float64_of_int64 : Z → float64) :
  covers registry (nonParamElements Classes) →
  nonParamElements Classes = before ++ e :: after →
  makeKey e ∉ makeKey <$> after →
  MonElement.Values e = {[ "a" := 10; "b" := 20 ]} →
  (∀ label value, Normalise e label value = float64_of_int64 value) →
  ∃ registry' Classes' metric,
    updateMetrics Normalise registry Classes = Some (registry', Classes')
    ∧ registry' !! makeKey e = Some metric
    ∧ values metric = Some {[ "a" := float64_of_int64 10; "b" := float64_of_int64 20 ]}
    ∧ nonParamElements Classes' =
        (clearCache <$> before) ++ clearCache e :: (clearCache <$> after)
    ∧ MonElement.Values (clearCache e) = ∅.
Proof.
  intros Hc Hsplit Hlast Hcache Hid.
  destruct (refreshed_last before after e registry Hlast) as (metric & Hm & Hv).
  { unfold covers in Hc. rewrite Forall_forall in Hc. apply Hc.
    rewrite Hsplit. apply elem_of_app. right. by left. }
  exists (foldl (refresh Normalise) registry (nonParamElements Classes)),
         (clearCaches Classes), metric.
  split; [by apply updateMetrics_ok|].
  split; [by rewrite Hsplit|]. split; [|split; [|done]].
  - rewrite Hv. f_equal. apply map_eq. intros label.
    rewrite normalisedValues_lookup, Hcache.
    destruct (decide (label = "a")) as [->|Ha].
    { rewrite !lookup_insert_eq. simpl. by rewrite Hid. }
    rewrite !(lookup_insert_ne _ "a") by done.
    destruct (decide (label = "b")) as [->|Hb].
    { rewrite !lookup_singleton_eq. simpl. by rewrite Hid. }
    by rewrite !lookup_singleton_ne.
  - by rewrite nonParamElements_clearCaches, Hsplit, fmap_app, fmap_cons.
Qed.

(** C9: [updateMetrics] returns exactly when the registry holds the derived
    key of every non-parameterised element of the catalog. At an element
    whose key is absent the lookup yields the nil pointer and the write
    through it panics; so does the call on the nil registry when there is
    anything to visit. A registry built by [initialiseMetrics] from the
    same catalog holds every key, and the call returns. *)
Theorem updateMetrics_total_iff (registry : Registry) (Classes : Catalog) :
  (is_Some (updateMetrics Normalise registry Classes) ↔
   ∀ e, e ∈ nonParamElements Classes → is_Some (registry !! makeKey e))
  ∧ (∀ e, registry !! makeKey e = None → updateElement Normalise registry e = None)
  ∧ (nonParamElements Classes ≠ [] → updateMetrics Normalise ∅ Classes = None)
  ∧ is_Some (updateMetrics Normalise
               (initialiseMetrics (float64:=float64) Classes).1.1 Classes).
Proof.
  split; [|split; [|split]].
  - split.
    + intros [r Hr]. apply updateMetrics_covers in Hr.
      unfold covers in Hr. by rewrite Forall_forall in Hr.
    + intros Hc. rewrite updateMetrics_ok; [by eexists|].
      unfold covers. by rewrite Forall_forall.
  - intros e He. unfold updateElement. by rewrite He.
  - intros Hne.
    destruct (updateMetrics Normalise ∅ Classes) as [r|] eqn:Hr; [|done].
    apply updateMetrics_covers in Hr.
    destruct (nonParamElements Classes) as [|e l]; [done|].
    apply Forall_cons in Hr as [[m Hm] _]. by rewrite lookup_empty in Hm.
  - rewrite updateMetrics_ok; [by eexists|]. apply initialiseMetrics_covers.
Qed.

(** C1: whenever the worker of a run stands at its select and a request
    arrives, it receives that one request; if the flag is true it runs
    [updateMetrics] on the registry, and that call returns; it then sends
    on the response channel the registry it holds at that moment, the
    refreshed one if the flag was true and the unchanged one otherwise.
    What follows in the step is the loop test only, and the worker is no
    longer at the select: no second request is read in the iteration. *)
Theorem request_is_served qmName script (w : Worker float64) trace
    (collect : bool) :
  processMetrics Normalise qmName script = Some (w, trace) →
  pc w = AtSelect →
  ∃ (registry' : Registry) (Classes' : Catalog) (w' : Worker float64)
    (rest : list (Action float64)),
    (if collect
     then updateMetrics Normalise (metrics w) (catalog w) = Some (registry', Classes')
     else (registry' = metrics w ∧ Classes' = catalog w))
    ∧ processMetrics Normalise qmName (script ++ [Request collect]) =
        Some (w', trace ++ [Receive collect]
                        ++ (if collect then [CallUpdateMetrics] else [])
                        ++ [Send registry'] ++ rest)
    ∧ metrics w' = registry' ∧ catalog w' = Classes'
    ∧ (w', rest) = innerLoopTest
                     {| pc := AtSelect; first := first w; err := err w;
                        metrics := registry'; catalog := Classes' |}
    ∧ (∀ b, Receive b ∉ rest) ∧ (∀ r, Send r ∉ rest) ∧ (CallUpdateMetrics ∉ rest)
    ∧ pc w' ≠ AtSelect.
Proof.
  intros Hrun Hpc.
  assert (Hready : covers (metrics w) (nonParamElements (catalog w))).
  { assert (Hr : ready w).
    { eapply runFrom_ready; [|exact Hrun]. by unfold ready. }
    unfold ready in Hr. by rewrite Hpc in Hr. }
  set (registry' := if collect
                    then foldl (refresh Normalise) (metrics w)
                               (nonParamElements (catalog w))
                    else metrics w).
  set (Classes' := if collect then clearCaches (catalog w) else catalog w).
  set (w1 := {| pc := AtSelect; first := first w; err := err w;
                metrics := registry'; catalog := Classes' |}).
  exists registry', Classes', (innerLoopTest w1).1, (innerLoopTest w1).2.
  split; [|split; [|split; [|split; [|split]]]].
  - unfold registry', Classes'. destruct collect; [by apply updateMetrics_ok|done].
  - unfold processMetrics in *. rewrite runFrom_app, Hrun. simpl.
    unfold step. rewrite Hpc. unfold selectStmt.
    destruct collect.
    + rewrite updateMetrics_ok by done. simpl. rewrite Hpc.
      fold registry' Classes' w1. destruct (innerLoopTest w1) as [w2 acts2].
      simpl. by rewrite app_nil_r.
    + rewrite Hpc. replace w with w1 at 1; [|by destruct w; simpl in *; subst].
      destruct (innerLoopTest w1) as [w2 acts2]. simpl. by rewrite app_nil_r.
  - unfold innerLoopTest. by destruct (err w1).
  - unfold innerLoopTest. by destruct (err w1).
  - fold w1. by destruct (innerLoopTest w1).
  - unfold innerLoopTest. destruct (err w1); simpl.
    + repeat split; try done; try intros ?; set_solver.
    + repeat split; try done; try intros ?; set_solver.
Qed.

(** *** The startup signal *)

Ltac absent :=
  let H := fresh "Hin" in
  intros H;
  repeat match type of H with
    | _ ∈ _ ++ _ => apply elem_of_app in H as [H|H]
    | _ ∈ _ :: _ => apply elem_of_cons in H as [H|H]
    | _ ∈ [] => by apply elem_of_nil in H
    | _ ∈ _ <$> _ => apply list_elem_of_fmap in H as (? & H & ?)
    | _ ∈ (if ?b then _ else _) => destruct b
    | _ = _ => discriminate H
    | _ ∈ ?f ?l1 ?l2 => progress change (f l1 l2) with (l1 ++ l2) in H
    end.

Lemma step_signal qmName (w w1 : Worker float64) ev acts :
  step Normalise qmName w ev = Some (w1, acts) →
  if first w
  then (first w1 = true ∧ (WgDone ∉ acts) ∧ (CallDoConnect None ∉ acts))
       ∨ (first w1 = false
          ∧ ∃ rest, acts = CallDoConnect None :: WgDone :: rest ∧ (WgDone ∉ rest))
  else first w1 = false ∧ (WgDone ∉ acts).
Proof.
  unfold step, publicationsStmt, selectStmt, connectStmt, innerLoopTest.
  destruct (pc w) eqn:Hpc; destruct ev as [[]|c|e cache|[]|]; try done.
  - intros [= <- <-]. cbn. destruct (first w); [left|]; repeat split; absent.
  - intros [= <- <-]. cbn. destruct (first w); [left|]; repeat split; absent.
  - destruct (doConnect qmName c) as [e|].
    + cbn. intros [= <- <-]. cbn.
      destruct (first w); [left|]; repeat split; absent.
    + destruct (initialiseMetrics _) as [[m0 e0] lg]. cbn.
      intros [= <- <-]. cbn. destruct (first w).
      * right. split; [done|]. eexists. split; [done|]. absent.
      * split; [done|]. absent.
  - intros [= <- <-]. cbn. destruct (first w); [left|]; repeat split; absent.
  - destruct (updateMetrics _ _ _) as [[m1 c1]|]; cbn; rewrite ?Hpc; cbn.
    + destruct (err w); intros [= <- <-]; cbn;
        (destruct (first w); [left|]; repeat split; absent).
    + intros [= <- <-]; cbn.
      destruct (first w); [left|]; repeat split; absent.
  - rewrite Hpc. destruct (err w); intros [= <- <-]; cbn;
      (destruct (first w); [left|]; repeat split; absent).
  - rewrite Hpc. destruct (err w); intros [= <- <-]; cbn;
      (destruct (first w); [left|]; repeat split; absent).
Qed.

Lemma run_no_signal qmName script (w w' : Worker float64) trace :
  first w = false →
  runFrom Normalise qmName w script = Some (w', trace) →
  WgDone ∉ trace.
Proof.
  revert w trace. induction script as [|ev script IH]; intros w trace Hf.
  - intros [= _ <-]. apply not_elem_of_nil.
  - simpl. destruct (step Normalise qmName w ev) as [[w1 acts1]|] eqn:Hs; [|done].
    destruct (runFrom Normalise qmName w1 script) as [[w2 acts2]|] eqn:Hrun; [|done].
    intros [= <- <-]. apply step_signal in Hs. rewrite Hf in Hs.
    destruct Hs as [Hf1 Hacts]. apply not_elem_of_app. split; [done|].
    by eapply IH.
Qed.

Lemma run_signal_once qmName script (w w' : Worker float64) trace :
  first w = true →
  runFrom Normalise qmName w script = Some (w', trace) →
  ((CallDoConnect None ∉ trace) ∧ (WgDone ∉ trace))
  ∨ (∃ pre post, trace = pre ++ CallDoConnect None :: WgDone :: post
                 ∧ (CallDoConnect None ∉ pre) ∧ (WgDone ∉ pre) ∧ (WgDone ∉ post)).
Proof.
  revert w trace. induction script as [|ev script IH]; intros w trace Hf.
  - intros [= _ <-]. left. split; apply not_elem_of_nil.
  - simpl. destruct (step Normalise qmName w ev) as [[w1 acts1]|] eqn:Hs; [|done].
    destruct (runFrom Normalise qmName w1 script) as [[w2 acts2]|] eqn:Hrun; [|done].
    intros [= <- <-]. apply step_signal in Hs. rewrite Hf in Hs.
    destruct Hs as [(Hf1 & Hw & Hc)|(Hf1 & rest & -> & Hrest)].
    + destruct (IH _ _ Hf1 Hrun) as [[Hc2 Hw2]|(pre & post & -> & Hc2 & Hw2 & Hpost)].
      * left. split; by apply not_elem_of_app.
      * right. exists (acts1 ++ pre), post.
        split; [by rewrite <- app_assoc|].
        repeat split; [by apply not_elem_of_app..|done].
    + right. exists [], (rest ++ acts2). split; [done|].
      split; [apply not_elem_of_nil|]. split; [apply not_elem_of_nil|].
      apply not_elem_of_app. split; [done|]. by eapply run_no_signal.
Qed.

(** C6: in a run of [processMetrics], whatever the number of connection
    attempts, failures and reconnections, [wg.Done] is called right after
    the first [doConnect] that returns nil, and at no other place of the
    run; as long as no [doConnect] has returned nil it is not called. *)
Theorem startup_signalled_once qmName script (w : Worker float64) trace :
  processMetrics Normalise qmName script = Some (w, trace) →
  ((CallDoConnect None ∉ trace) ∧ (WgDone ∉ trace))
  ∨ (∃ pre post, trace = pre ++ CallDoConnect None :: WgDone :: post
                 ∧ (CallDoConnect None ∉ pre) ∧ (WgDone ∉ pre) ∧ (WgDone ∉ post)).
Proof. by apply run_signal_once. Qed.

(** *** Reconnection *)

Lemma app_eq_split {A} (l1 l2 pre post : list A) (x : A) :
  l1 ++ l2 = pre ++ x :: post →
  (∃ mid, l1 = pre ++ x :: mid ∧ post = mid ++ l2)
  ∨ (∃ mid, pre = l1 ++ mid ∧ l2 = mid ++ x :: post).
Proof.
  revert pre. induction l1 as [|a l1 IH]; intros pre Heq.
  - right. by exists pre.
  - destruct pre as [|b pre]; simpl in *.
    + injection Heq as -> <-. left. by exists l1.
    + injection Heq as -> Heq. apply IH in Heq as [(mid & -> & ->)|(mid & -> & ->)].
      * left. by exists mid.
      * right. by exists mid.
Qed.

Lemma head_only {A} (P : A → Prop) (a : A) (rest pre post : list A) (x : A) :
  P x → (∀ y, y ∈ rest → ¬ P y) → a :: rest = pre ++ x :: post → pre = [].
Proof.
  intros Hx Hrest Heq. destruct pre as [|b pre]; [done|].
  injection Heq as _ ->. exfalso. apply (Hrest x); [|done].
  apply elem_of_app. right. by left.
Qed.

Lemma step_connects qmName (w w1 : Worker float64) ev acts pre e post :
  step Normalise qmName w ev = Some (w1, acts) →
  acts = pre ++ CallDoConnect e :: post →
  pc w = AtConnect ∧ pre = [].
Proof.
  intros Hs Hacts.
  assert (Hin : CallDoConnect e ∈ acts).
  { rewrite Hacts. apply elem_of_app. right. by left. }
  revert Hs. unfold step, publicationsStmt, selectStmt, connectStmt, innerLoopTest.
  destruct (pc w) eqn:Hpc; destruct ev as [[]|c|e' cache|[]|]; try done.
  - intros [= <- <-]. exfalso. revert Hin. absent.
  - intros [= <- <-]. exfalso. revert Hin. absent.
  - intros Hs. split; [done|].
    apply (head_only (λ a, ∃ e0, a = CallDoConnect e0) (CallDoConnect (doConnect qmName c))
             (tail acts) pre post (CallDoConnect e)); [by eexists| |].
    + intros y Hy [e0 ->]. revert Hy.
      destruct (doConnect qmName c) as [e1|].
      * cbn in Hs. injection Hs as <- <-. cbn. absent.
      * destruct (initialiseMetrics _) as [[m0 e1] lg]. cbn in Hs.
        injection Hs as <- <-. cbn. absent.
    + rewrite <- Hacts.
      destruct (doConnect qmName c) as [e1|].
      * cbn in Hs. by injection Hs as <- <-.
      * destruct (initialiseMetrics _) as [[m0 e1] lg]. cbn in Hs.
        by injection Hs as <- <-.
  - intros [= <- <-]. exfalso. revert Hin. absent.
  - destruct (updateMetrics _ _ _) as [[m1 c1]|]; cbn; rewrite ?Hpc; cbn.
    + destruct (err w); intros [= <- <-]; exfalso; revert Hin; absent.
    + intros [= <- <-]; exfalso; revert Hin; absent.
  - rewrite Hpc. destruct (err w); intros [= <- <-]; exfalso; revert Hin; absent.
  - rewrite Hpc. destruct (err w); intros [= <- <-]; exfalso; revert Hin; absent.
Qed.

Lemma backedOff_teardown (h acts : list (Action float64)) line :
  backedOff (h ++ acts ++ [LogErrorf line; EndConnection; Sleep 10]).
Proof.
  right. exists (h ++ acts ++ [LogErrorf line]).
  by rewrite <- !app_assoc.
Qed.

Lemma step_history qmName (w w1 : Worker float64) ev acts h :
  historyAt w h →
  step Normalise qmName w ev = Some (w1, acts) →
  historyAt w1 (h ++ acts).
Proof.
  unfold step, publicationsStmt, selectStmt, connectStmt, innerLoopTest, historyAt.
  destruct (pc w) eqn:Hpc; destruct ev as [[]|c|e cache|[]|]; try done.
  - intros Hh [= <- <-]. cbn. by exists h.
  - by intros _ [= <- <-].
  - intros _. destruct (doConnect qmName c) as [e|].
    + cbn. intros [= <- <-]. cbn.
      apply (backedOff_teardown h [CallDoConnect (Some e)]).
    + destruct (initialiseMetrics _) as [[m0 e0] lg]. cbn.
      by intros [= <- <-].
  - by intros _ [= <- <-].
  - intros _. destruct (updateMetrics _ _ _) as [[m1 c1]|]; cbn; rewrite ?Hpc; cbn.
    + destruct (err w) as [e|]; intros [= <- <-]; cbn; [|done].
      apply (backedOff_teardown h [Receive true; CallUpdateMetrics; Send m1]).
    + by intros [= <- <-].
  - intros _. rewrite Hpc. destruct (err w) as [e|]; intros [= <- <-]; cbn; [|done].
    apply (backedOff_teardown h [Receive false; Send (metrics w)]).
  - intros _. rewrite Hpc. destruct (err w) as [e|]; intros [= <- <-]; cbn; [|done].
    apply (backedOff_teardown h [LogDebugf _]).
Qed.

Lemma run_history qmName script (w w' : Worker float64) trace h pre e post :
  historyAt w h →
  runFrom Normalise qmName w script = Some (w', trace) →
  trace = pre ++ CallDoConnect e :: post →
  ∃ before, h ++ pre = before ++ [TestKeepRunning true] ∧ backedOff before.
Proof.
  revert w trace h pre. induction script as [|ev script IH]; intros w trace h pre Hh.
  - intros [= _ <-] Heq. by destruct pre.
  - simpl. destruct (step Normalise qmName w ev) as [[w1 acts1]|] eqn:Hs; [|done].
    destruct (runFrom Normalise qmName w1 script) as [[w2 acts2]|] eqn:Hrun; [|done].
    intros [= <- <-] Heq.
    apply app_eq_split in Heq as [(mid & Hacts & ->)|(mid & -> & ->)].
    + destruct (step_connects _ _ _ _ _ _ _ _ Hs Hacts) as [Hpc ->].
      unfold historyAt in Hh. rewrite Hpc in Hh. by rewrite app_nil_r.
    + pose proof (step_history _ _ _ _ _ _ Hh Hs) as Hh1.
      destruct (IH _ _ _ mid Hh1 Hrun eq_refl) as (before & Hb & Hoff).
      exists before. by rewrite app_assoc.
Qed.

Lemma step_sleep qmName (w w1 : Worker float64) ev acts seconds :
  step Normalise qmName w ev = Some (w1, acts) → Sleep seconds ∈ acts → seconds = 10.
Proof.
  unfold step, publicationsStmt, selectStmt, connectStmt, innerLoopTest.
  assert (Hten : ∀ line (l : list (Action float64)),
            (Sleep seconds ∈ l → seconds = 10) →
            Sleep seconds ∈ l ++ [LogErrorf line; EndConnection; Sleep 10] →
            seconds = 10).
  { intros line l Hl [H|H]%elem_of_app; [by apply Hl|].
    apply elem_of_cons in H as [H|H]; [done|].
    apply elem_of_cons in H as [H|H]; [done|].
    apply list_elem_of_singleton in H. by injection H. }
  destruct (pc w) eqn:Hpc; destruct ev as [[]|c|e cache|[]|]; try done.
  - intros [= <- <-]. absent.
  - intros [= <- <-]. absent.
  - destruct (doConnect qmName c) as [e|].
    + cbn. intros [= <- <-]. apply (Hten _ [CallDoConnect (Some e)]). absent.
    + destruct (initialiseMetrics _) as [[m0 e0] lg]. cbn.
      intros [= <- <-]. absent.
  - intros [= <- <-]. absent.
  - destruct (updateMetrics _ _ _) as [[m1 c1]|]; cbn; rewrite ?Hpc; cbn.
    + destruct (err w) as [e|]; intros [= <- <-]; [|absent].
      apply (Hten _ [Receive true; CallUpdateMetrics; Send m1]). absent.
    + intros [= <- <-]. absent.
  - rewrite Hpc. destruct (err w) as [e|]; intros [= <- <-]; [|absent].
    apply (Hten _ [Receive false; Send (metrics w)]). absent.
  - rewrite Hpc. destruct (err w) as [e|]; intros [= <- <-]; [|absent].
    apply (Hten _ [LogDebugf _]). absent.
Qed.

Lemma run_sleep qmName script (w w' : Worker float64) trace seconds :
  runFrom Normalise qmName w script = Some (w', trace) →
  Sleep seconds ∈ trace → seconds = 10.
Proof.
  revert w trace. induction script as [|ev script IH]; intros w trace.
  - intros [= _ <-] H. by apply elem_of_nil in H.
  - simpl. destruct (step Normalise qmName w ev) as [[w1 acts1]|] eqn:Hs; [|done].
    destruct (runFrom Normalise qmName w1 script) as [[w2 acts2]|] eqn:Hrun; [|done].
    intros [= <- <-] [H|H]%elem_of_app.
    + by eapply step_sleep.
    + by eapply IH.
Qed.

Lemma run_retries qmName (c : connection) (e : string) (n : nat) (w : Worker float64) :
  pc w = AtLoopTest →
  doConnect qmName c = Some e →
  ∃ w', runFrom Normalise qmName w
          (concat (replicate n [KeepRunning true; Connect c]))
        = Some (w', concat (replicate n
                   [TestKeepRunning true; CallDoConnect (Some e);
                    LogErrorf ("Metrics Error: " +:+ e); EndConnection; Sleep 10]))
        ∧ pc w' = AtLoopTest.
Proof.
  revert w. induction n as [|n IH]; intros w Hpc Hc.
  - by exists w.
  - cbn [replicate concat app runFrom].
    unfold step at 1. rewrite Hpc. cbn [goto].
    unfold step at 1. cbn [pc]. unfold connectStmt. rewrite Hc.
    unfold innerLoopTest. cbn [err goto first metrics catalog pc].
    match goal with |- context [runFrom _ _ ?w1 _] =>
      destruct (IH w1 eq_refl Hc) as (w' & -> & Hpc') end.
    by exists w'.
Qed.

(** C8: in a run of [processMetrics], every call of [doConnect] comes
    right after a test of [keepRunning] that found it true, and that test
    is either the first thing the worker does or comes right after the
    teardown of the previous attempt, which ends with a sleep; every sleep
    lasts 10 seconds. A failed attempt leaves the worker at the loop test
    again, so that any number of attempts fail one after the other; and
    when the test finds [keepRunning] false the worker returns. *)
Theorem reconnect_backoff qmName :
  (∀ script (w : Worker float64) trace pre e post,
     processMetrics Normalise qmName script = Some (w, trace) →
     trace = pre ++ CallDoConnect e :: post →
     pre = [TestKeepRunning true]
     ∨ ∃ before, pre = before ++ [EndConnection; Sleep 10; TestKeepRunning true])
  ∧ (∀ script (w : Worker float64) trace seconds,
       processMetrics Normalise qmName script = Some (w, trace) →
       Sleep seconds ∈ trace → seconds = 10)
  ∧ (∀ (w : Worker float64) c e (n : nat),
       pc w = AtLoopTest →
       doConnect qmName c = Some e →
       ∃ w', runFrom Normalise qmName w
               (concat (replicate n [KeepRunning true; Connect c]))
             = Some (w', concat (replicate n
                        [TestKeepRunning true; CallDoConnect (Some e);
                         LogErrorf ("Metrics Error: " +:+ e);
                         EndConnection; Sleep 10]))
             ∧ pc w' = AtLoopTest)
  ∧ (∀ (w : Worker float64),
       pc w = AtLoopTest →
       step Normalise qmName w (KeepRunning false)
       = Some (goto Returned w, [TestKeepRunning false; Return])
       ∧ ∀ ev, step Normalise qmName (goto Returned w) ev = None).
Proof.
  split; [|split; [|split]].
  - intros script w trace pre e post Hrun Heq.
    destruct (run_history qmName script start w trace [] pre e post)
      as (before & Hb & Hoff); [by left|done..|].
    simpl in Hb. subst pre.
    destruct Hoff as [->|(before' & ->)]; [by left|].
    right. exists before'. by rewrite <- app_assoc.
  - intros script w trace seconds Hrun. by eapply run_sleep.
  - intros w c e n. apply run_retries.
  - intros w Hpc. split.
    + unfold step. by rewrite Hpc.
    + by intros [].
Qed.

End Properties.

(** ** The properties at the sample data *)

Example makeKey_userCPU :
  makeKey userCPU = "CPU/SystemSummary/User CPU time percentage".
Proof. reflexivity. Qed.

Example Contains_wildcard :
  Contains putTopic "%s" = true ∧ Contains summaryTopic "%s" = false
  ∧ Contains "100%" "%s" = false ∧ Contains "" "" = true.
Proof. by repeat split. Qed.

Example nonParamElements_mixedCatalog :
  nonParamElements mixedCatalog = [userCPU; ramFree]
  ∧ allElements mixedCatalog = [userCPU; ramFree; putCount].
Proof. by split. Qed.

Example doConnect_refused :
  doConnect "QM1" refused =
  Some "Failed to connect to queue manager QM1: MQRC_Q_MGR_NOT_AVAILABLE".
Proof. reflexivity. Qed.

Example initialiseMetrics_clashCatalog :
  (initialiseMetrics (float64:=Z) clashCatalog).2 =
  ["Metrics Error: Found duplicate metric key CPU/SystemSummary/User CPU time percentage"].
Proof. vm_compute. reflexivity. Qed.

Example idle_round :
  ∃ w : Worker Z,
    processMetrics rawSample "QM1" (servingScript ++ [Timeout]) =
    Some (w, [TestKeepRunning true; CallDoConnect None; WgDone;
              CallInitialiseMetrics; CallProcessPublications None;
              LogDebugf "Metrics: No requests received within timeout period (10 seconds)"])
    ∧ pc w = AtPublications.
Proof. eexists. split; [vm_compute; reflexivity|reflexivity]. Qed.

Lemma request_is_served_witness :
  ∃ (w w' : Worker Z) trace registry' rest,
    processMetrics rawSample "QM1" servingScript = Some (w, trace)
    ∧ pc w = AtSelect
    ∧ updateMetrics rawSample (metrics w) (catalog w) = Some (registry', catalog w')
    ∧ processMetrics rawSample "QM1" (servingScript ++ [Request true]) =
        Some (w', trace ++ [Receive true] ++ [CallUpdateMetrics]
                        ++ [Send registry'] ++ rest)
    ∧ metrics w' = registry'
    ∧ pc w' ≠ AtSelect.
Proof.
  destruct (processMetrics rawSample "QM1" servingScript) as [[w trace]|] eqn:Hrun;
    [|by vm_compute in Hrun].
  assert (Hpc : pc w = AtSelect).
  { vm_compute in Hrun. by injection Hrun as <- _. }
  destruct (request_is_served rawSample "QM1" servingScript w trace true Hrun Hpc)
    as (registry' & Classes' & w' & rest & Hup & Hnext & Hm & Hc & _ & _ & _ & _ & Hpc').
  exists w, w', trace, registry', rest. subst Classes'. by repeat split.
Defined.

Lemma initialiseMetrics_key_set_witness :
  (∀ metricClass metricType,
     metricClass ∈ plainCatalog → metricType ∈ Types metricClass →
     Contains (ObjectTopic metricType) "%s" = false)
  ∧ NoDup (makeKey <$> allElements plainCatalog)
  ∧ dom (initialiseMetrics (float64:=Z) plainCatalog).1.1 =
      {[ "CPU/SystemSummary/User CPU time percentage";
         "CPU/SystemSummary/RAM free percentage" ]}
  ∧ (initialiseMetrics (float64:=Z) plainCatalog).1.2 = None.
Proof.
  assert (H1 : ∀ metricClass metricType,
     metricClass ∈ plainCatalog → metricType ∈ Types metricClass →
     Contains (ObjectTopic metricType) "%s" = false).
  { intros c t Hc Ht. apply list_elem_of_singleton in Hc. subst c.
    apply list_elem_of_singleton in Ht. by subst t. }
  assert (H2 : NoDup (makeKey <$> allElements plainCatalog)) by compute_done.
  destruct (initialiseMetrics_key_set (float64:=Z) plainCatalog H1 H2) as [Hdom Herr].
  split; [done|]. split; [done|]. split; [|done].
  rewrite Hdom. vm_compute. reflexivity.
Defined.

Lemma initialiseMetrics_first_writer_wins_witness :
  nonParamElements clashCatalog = [] ++ userCPU :: [ramFree] ++ userCPUAgain :: []
  ∧ makeKey userCPUAgain = makeKey userCPU
  ∧ (makeKey userCPU ∉ makeKey <$> [])
  ∧ let '(metrics, err, logged) := initialiseMetrics (float64:=Z) clashCatalog in
    err = Some "Invalid metrics data - found duplicate metric keys"
    ∧ metrics !! makeKey userCPU =
        Some {| name := "User CPU time percentage";
                description := "User CPU time percentage";
                objectType := false; values := None |}
    ∧ ("Metrics Error: Found duplicate metric key " +:+ makeKey userCPU) ∈ logged
    ∧ dom metrics = list_to_set (makeKey <$> nonParamElements clashCatalog).
Proof.
  assert (H1 : nonParamElements clashCatalog
               = [] ++ userCPU :: [ramFree] ++ userCPUAgain :: []) by reflexivity.
  assert (H2 : makeKey userCPUAgain = makeKey userCPU) by reflexivity.
  assert (H3 : makeKey userCPU ∉ makeKey <$> []) by apply not_elem_of_nil.
  split; [done|]. split; [done|]. split; [done|].
  exact (initialiseMetrics_first_writer_wins (float64:=Z) clashCatalog
           [] [ramFree] [] userCPU userCPUAgain H1 H2 H3).
Defined.

Lemma updateMetrics_twice_witness :
  covers (initialiseMetrics (float64:=Z) mixedCatalog).1.1 (nonParamElements mixedCatalog)
  ∧ ∃ registry1 Classes1 registry2 Classes2,
      updateMetrics rawSample (initialiseMetrics mixedCatalog).1.1 mixedCatalog
        = Some (registry1, Classes1)
      ∧ (∀ e, e ∈ nonParamElements Classes1 → MonElement.Values e = ∅)
      ∧ updateMetrics rawSample registry1 Classes1 = Some (registry2, Classes2)
      ∧ (∀ e, e ∈ nonParamElements mixedCatalog →
           ∃ metric, registry2 !! makeKey e = Some metric ∧ values metric = Some ∅).
Proof.
  assert (H : covers (initialiseMetrics (float64:=Z) mixedCatalog).1.1
                     (nonParamElements mixedCatalog)).
  { unfold covers. repeat constructor; vm_compute; eexists; reflexivity. }
  split; [done|].
  exact (updateMetrics_twice rawSample _ mixedCatalog H).
Defined.

Lemma updateMetrics_round_trip_witness :
  covers (initialiseMetrics (float64:=Z) mixedCatalog).1.1 (nonParamElements mixedCatalog)
  ∧ nonParamElements mixedCatalog = [] ++ userCPU :: [ramFree]
  ∧ (makeKey userCPU ∉ makeKey <$> [ramFree])
  ∧ MonElement.Values userCPU = {[ "a" := 10; "b" := 20 ]}
  ∧ (∀ label value, rawSample userCPU label value = value)
  ∧ ∃ registry' Classes' metric,
      updateMetrics rawSample (initialiseMetrics mixedCatalog).1.1 mixedCatalog
        = Some (registry', Classes')
      ∧ registry' !! makeKey userCPU = Some metric
      ∧ values metric = Some {[ "a" := 10; "b" := 20 ]}
      ∧ nonParamElements Classes' =
          (clearCache <$> []) ++ clearCache userCPU :: (clearCache <$> [ramFree])
      ∧ MonElement.Values (clearCache userCPU) = ∅.
Proof.
  assert (H1 : covers (initialiseMetrics (float64:=Z) mixedCatalog).1.1
                      (nonParamElements mixedCatalog)).
  { unfold covers. repeat constructor; vm_compute; eexists; reflexivity. }
  assert (H2 : nonParamElements mixedCatalog = [] ++ userCPU :: [ramFree])
    by reflexivity.
  assert (H3 : makeKey userCPU ∉ makeKey <$> [ramFree]) by compute_done.
  assert (H4 : MonElement.Values userCPU = {[ "a" := 10; "b" := 20 ]}) by reflexivity.
  assert (H5 : ∀ label value, rawSample userCPU label value = value) by reflexivity.
  repeat (split; [done|]).
  exact (updateMetrics_round_trip rawSample _ mixedCatalog [] [ramFree] userCPU
           (λ value, value) H1 H2 H3 H4 H5).
Defined.

(** C5 as stated fails where an element visited later has the same key:
    the entry is present, the cache of [userCPU] is {a:10, b:20} and the
    normalisation hands the sample on, yet after the call the [values] map
    of the entry is that of [userCPUAgain]. *)
Lemma updateMetrics_round_trip_shared_key :
  let registry := (initialiseMetrics (float64:=Z) clashCatalog).1.1 in
  userCPU ∈ nonParamElements clashCatalog
  ∧ is_Some (registry !! makeKey userCPU)
  ∧ MonElement.Values userCPU = {[ "a" := 10; "b" := 20 ]}
  ∧ (∀ label value, rawSample userCPU label value = value)
  ∧ ∃ registry' Classes' metric,
      updateMetrics rawSample registry clashCatalog = Some (registry', Classes')
      ∧ registry' !! makeKey userCPU = Some metric
      ∧ values metric = Some {[ "c" := 5 ]}
      ∧ values metric ≠ Some {[ "a" := 10; "b" := 20 ]}.
Proof.
  cbv zeta. split; [by left|]. split; [vm_compute; by eexists|].
  split; [done|]. split; [done|].
  destruct (updateMetrics rawSample _ clashCatalog) as [[registry' Classes']|] eqn:Hup;
    [|by vm_compute in Hup].
  destruct (registry' !! makeKey userCPU) as [metric|] eqn:Hm;
    [|vm_compute in Hup; injection Hup as <- _; by vm_compute in Hm].
  assert (Hv : values metric = Some {[ "c" := 5 ]}).
  { vm_compute in Hup. injection Hup as <- _. vm_compute in Hm.
    injection Hm as <-. vm_compute. reflexivity. }
  exists registry', Classes', metric.
  split; [done|]. split; [done|]. split; [done|].
  rewrite Hv. intros Heq.
  apply (f_equal (λ o : option (gmap string Z), o ≫= (λ m, m !! "c"))) in Heq.
  vm_compute in Heq. discriminate Heq.
Qed.

Lemma startup_signalled_once_witness :
  ∃ (w : Worker Z) trace,
    processMetrics rawSample "QM1" reconnectScript = Some (w, trace)
    ∧ (((CallDoConnect None ∉ trace) ∧ (WgDone ∉ trace))
       ∨ (∃ pre post, trace = pre ++ CallDoConnect None :: WgDone :: post
                      ∧ (CallDoConnect None ∉ pre) ∧ (WgDone ∉ pre)
                      ∧ (WgDone ∉ post))).
Proof.
  destruct (processMetrics rawSample "QM1" reconnectScript) as [[w trace]|] eqn:Hrun;
    [|by vm_compute in Hrun].
  exists w, trace. split; [done|].
  exact (startup_signalled_once rawSample "QM1" reconnectScript w trace Hrun).
Defined.

Lemma reconnect_backoff_witness :
  ∃ (w : Worker Z) trace,
    processMetrics rawSample "QM1" reconnectScript = Some (w, trace)
    ∧ (∀ pre e post,
         trace = pre ++ CallDoConnect e :: post →
         pre = [TestKeepRunning true]
         ∨ ∃ before, pre = before ++ [EndConnection; Sleep 10; TestKeepRunning true])
    ∧ (∀ seconds, Sleep seconds ∈ trace → seconds = 10)
    ∧ ∃ w', runFrom rawSample "QM1" start
              (concat (replicate 3 [KeepRunning true; Connect refused])) =
            Some (w', concat (replicate 3
                    [TestKeepRunning true;
                     CallDoConnect (Some "Failed to connect to queue manager QM1: MQRC_Q_MGR_NOT_AVAILABLE");
                     LogErrorf "Metrics Error: Failed to connect to queue manager QM1: MQRC_Q_MGR_NOT_AVAILABLE";
                     EndConnection; Sleep 10]))
            ∧ pc w' = AtLoopTest.
Proof.
  destruct (processMetrics rawSample "QM1" reconnectScript) as [[w trace]|] eqn:Hrun;
    [|by vm_compute in Hrun].
  destruct (reconnect_backoff (float64:=Z) rawSample "QM1") as (Hback & Hsleep & Hretry & _).
  exists w, trace. split; [done|]. split; [|split].
  - intros pre e post. by apply (Hback reconnectScript w).
  - intros seconds. by apply (Hsleep reconnectScript w).
  - exact (Hretry start refused _ 3%nat eq_refl eq_refl).
Defined.

Lemma updateMetrics_total_iff_witness :
  is_Some (updateMetrics rawSample (initialiseMetrics (float64:=Z) mixedCatalog).1.1
             mixedCatalog)
  ∧ updateMetrics rawSample ∅ mixedCatalog = None.
Proof.
  destruct (updateMetrics_total_iff rawSample
              (initialiseMetrics (float64:=Z) mixedCatalog).1.1 mixedCatalog)
    as (_ & _ & Hnil & Hsame).
  split; [done|]. by apply Hnil.
Defined.

Lemma values_nil_until_first_update_witness :
  ∃ (w : Worker Z) trace sent,
    processMetrics rawSample "QM1" reconnectScript = Some (w, trace)
    ∧ (Request true ∉ reconnectScript)
    ∧ (Send sent ∈ trace)
    ∧ is_Some (sent !! "CPU/SystemSummary/RAM free percentage")
    ∧ ∀ key metric, sent !! key = Some metric →
        values metric = None ∧ valuesOf metric = ∅.
Proof.
  destruct (processMetrics rawSample "QM1" reconnectScript) as [[w trace]|] eqn:Hrun;
    [|by vm_compute in Hrun].
  assert (Hno : Request true ∉ reconnectScript).
  { unfold reconnectScript. intros Hin.
    repeat (apply elem_of_cons in Hin as [Hin|Hin]; [discriminate Hin|]).
    by apply elem_of_nil in Hin. }
  assert (Hsent : Send (metrics w) ∈ trace
                  ∧ is_Some (metrics w !! "CPU/SystemSummary/RAM free percentage")).
  { vm_compute in Hrun. injection Hrun as <- <-. split.
    - repeat first [apply list_elem_of_here | apply list_elem_of_further].
    - vm_compute. by eexists. }
  destruct Hsent as [Hsent Hkey].
  exists w, trace, (metrics w). repeat (split; [done|]).
  intros key metric Hm.
  destruct (values_nil_until_first_update (float64:=Z) rawSample "QM1") as [_ Hserve].
  exact (Hserve reconnectScript w trace (metrics w) key metric Hrun Hno Hsent Hm).
Defined.

(** C7: the drain fails while a request is waiting. The worker does not
    leave the loop at once: it enters the select, receives the request,
    runs [updateMetrics] and sends the registry, and only then logs the
    error, ends the connection and sleeps. *)
Theorem request_served_after_failed_drain :
  ∃ (w : Worker Z) sent,
    processMetrics rawSample "QM1" brokenScript =
      Some (w, [TestKeepRunning true; CallDoConnect None; WgDone;
                CallInitialiseMetrics;
                CallProcessPublications (Some "MQRC_CONNECTION_BROKEN");
                Receive true; CallUpdateMetrics; Send sent;
                LogErrorf "Metrics Error: MQRC_CONNECTION_BROKEN";
                EndConnection; Sleep 10])
    ∧ pc w = AtLoopTest
    ∧ sent = metrics w.
Proof.
  eexists _, _. split; [vm_compute; reflexivity|]. split; reflexivity.
Qed.

(** ** Further properties: keys and topics *)

Lemma prefix_spec (p s : string) :
  String.prefix p s = true ↔ ∃ post, s = p +:+ post.
Proof.
  revert s. induction p as [|a p IH]; intros s.
  - split; [intros _; by exists s|by destruct s].
  - destruct s as [|b s]; simpl.
    + split; [done|]. by intros [post Hpost].
    + destruct (Ascii.ascii_dec a b) as [->|Hne].
      * rewrite IH. split.
        -- intros [post ->]. by exists post.
        -- intros [post [= ->]]. by exists post.
      * split; [done|]. intros [post [= ? _]]. by subst.
Qed.

(** X10: the model of [strings.Contains] answers true exactly when the
    second string occurs in the first. *)
Theorem Contains_spec (s substr : string) :
  Contains s substr = true ↔ ∃ pre post, s = pre +:+ substr +:+ post.
Proof.
  induction s as [|c s IH]; cbn [Contains].
  - rewrite orb_false_r, prefix_spec. split.
    + intros [post ->]. by exists "", post.
    + intros (pre & post & Heq). destruct pre; [by exists post|done].
  - rewrite orb_true_iff, prefix_spec, IH. split.
    + intros [[post ->]|(pre & post & ->)].
      * by exists "", post.
      * by exists (String c pre), post.
    + intros (pre & post & Heq). destruct pre as [|c' pre].
      * left. by exists post.
      * right. injection Heq as -> ->. by exists pre, post.
Qed.

Lemma separator_unique (a a' r r' : string) :
  slashFree a = true → slashFree a' = true →
  a +:+ "/" +:+ r = a' +:+ "/" +:+ r' → a = a' ∧ r = r'.
Proof.
  revert a'. induction a as [|c a IH]; intros [|c' a'] Ha Ha' Heq;
    cbn in Ha, Ha', Heq.
  - injection Heq as Heq. by subst.
  - injection Heq as Hc _. subst c'. done.
  - injection Heq as Hc _. subst c. done.
  - apply andb_prop in Ha as [_ Ha]. apply andb_prop in Ha' as [_ Ha'].
    injection Heq as -> Heq.
    by destruct (IH a' Ha Ha' Heq) as [-> ->].
Qed.

(** X9: [makeKey] tells two elements apart whenever the names of their
    classes and types do not contain "/": equal keys then mean equal class
    name, type name and metric name. *)
Theorem makeKey_injective (e1 e2 : MonElement.t) :
  slashFree e1.(MonElement.Parent).(MonType.Parent).(MonClass.Name) = true →
  slashFree e1.(MonElement.Parent).(MonType.Name) = true →
  slashFree e2.(MonElement.Parent).(MonType.Parent).(MonClass.Name) = true →
  slashFree e2.(MonElement.Parent).(MonType.Name) = true →
  makeKey e1 = makeKey e2 →
  e1.(MonElement.Parent).(MonType.Parent).(MonClass.Name)
    = e2.(MonElement.Parent).(MonType.Parent).(MonClass.Name)
  ∧ e1.(MonElement.Parent).(MonType.Name) = e2.(MonElement.Parent).(MonType.Name)
  ∧ e1.(MonElement.MetricName) = e2.(MonElement.MetricName).
Proof.
  unfold makeKey. intros Hc1 Ht1 Hc2 Ht2 Heq.
  apply separator_unique in Heq as [Hc Heq]; [|done..].
  apply separator_unique in Heq as [Ht Hn]; done.
Qed.

(** Without that the key is not unique. *)
Example makeKey_clash :
  makeKey diskRead = makeKey diskLogRead
  ∧ diskRead.(MonElement.MetricName) ≠ diskLogRead.(MonElement.MetricName).
Proof. by split. Qed.

Lemma elem_of_nonParamElements (Classes : Catalog) (e : MonElement.t) :
  e ∈ nonParamElements Classes ↔
  ∃ metricClass metricType,
    metricClass ∈ Classes ∧ metricType ∈ Types metricClass
    ∧ Contains (ObjectTopic metricType) "%s" = false
    ∧ e ∈ Elements metricType.
Proof.
  unfold nonParamElements. rewrite list_elem_of_bind. split.
  - intros (c & (t & He & Ht)%list_elem_of_bind & Hc).
    exists c, t. unfold typeElements, parameterised in He.
    destruct (Contains (ObjectTopic t) "%s"); [by apply elem_of_nil in He|done].
  - intros (c & t & Hc & Ht & Hplain & He).
    exists c. split; [|done]. apply list_elem_of_bind. exists t. split; [|done].
    unfold typeElements, parameterised. by rewrite Hplain.
Qed.

Section Builder.
Context {float64 : Type}.

Local Abbreviation Registry := (gmap string (metricData float64)).
Local Abbreviation initState' := (initState float64).

(** X1: for every catalog, a key is in the registry built by
    [initialiseMetrics] exactly when it is the key of an element of a type
    whose topic does not contain "%s"; the types with such a topic add
    nothing. *)
Theorem initialiseMetrics_keys (Classes : Catalog) (key : string) :
  key ∈ dom (initialiseMetrics (float64:=float64) Classes).1.1 ↔
  ∃ metricClass metricType metricElement,
    metricClass ∈ Classes ∧ metricType ∈ Types metricClass
    ∧ Contains (ObjectTopic metricType) "%s" = false
    ∧ metricElement ∈ Elements metricType
    ∧ makeKey metricElement = key.
Proof.
  rewrite initialiseMetrics_loops, init_dom. simpl.
  rewrite elem_of_union, elem_of_list_to_set, list_elem_of_fmap. split.
  - intros [Hin|(e & -> & He)]; [by apply not_elem_of_empty in Hin|].
    apply elem_of_nonParamElements in He as (c & t & Hc & Ht & Hplain & He).
    by exists c, t, e.
  - intros (c & t & e & Hc & Ht & Hplain & He & <-). right.
    exists e. split; [done|]. apply elem_of_nonParamElements. by exists c, t.
Qed.

Lemma init_valid_iff (l : list MonElement.t) (st : initState') :
  i_validMetrics (foldl initElement st l) = true ↔
  i_validMetrics st = true ∧ NoDup (makeKey <$> l)
  ∧ ∀ e, e ∈ l → i_metrics st !! makeKey e = None.
Proof.
  split; [|intros (? & ? & ?); by apply init_valid].
  revert st. induction l as [|e l IH]; intros st.
  - intros Hv. split; [done|]. split; [constructor|].
    intros e He. by apply elem_of_nil in He.
  - simpl. intros (Hv & Hnd & Hfresh)%IH.
    unfold initElement in Hv, Hfresh.
    destruct (i_metrics st !! makeKey e) eqn:He; simpl in *; [done|].
    split; [done|]. split.
    + apply NoDup_cons. split; [|done].
      intros (e' & Hk & He')%list_elem_of_fmap.
      specialize (Hfresh e' He'). rewrite <- Hk, lookup_insert_eq in Hfresh. done.
    + intros e' [->|He']%elem_of_cons; [done|].
      specialize (Hfresh e' He'). by apply lookup_insert_None in Hfresh as [? _].
Qed.

(** X2: for every catalog, [initialiseMetrics] returns a nil error exactly
    when no two elements it visits have the same key; otherwise the error
    is the one about duplicate metric keys. *)
Theorem initialiseMetrics_valid_iff (Classes : Catalog) :
  ((initialiseMetrics (float64:=float64) Classes).1.2 = None ↔
   NoDup (makeKey <$> nonParamElements Classes))
  ∧ ((initialiseMetrics (float64:=float64) Classes).1.2 = None
     ∨ (initialiseMetrics (float64:=float64) Classes).1.2
       = Some "Invalid metrics data - found duplicate metric keys").
Proof.
  unfold initialiseMetrics. rewrite initLoops_flat.
  pose proof (init_valid_iff (nonParamElements Classes)
    {| i_metrics := ∅; i_validMetrics := true; i_log := [] |}) as Hiff.
  destruct (i_validMetrics (foldl initElement _ _)); simpl.
  - split; [|by left]. split; [intros _|done].
    by apply Hiff.
  - split; [|by right]. split; [done|]. intros Hnd.
    assert (false = true); [|done]. apply Hiff. split; [done|]. split; [done|].
    intros e _. apply lookup_empty.
Qed.

Lemma init_lookup (l : list MonElement.t) (st : initState') (key : string) :
  i_metrics (foldl initElement st l) !! key =
  match i_metrics st !! key with
  | Some metric => Some metric
  | None => newMetric <$> head (filter (λ e, makeKey e = key) l)
  end.
Proof.
  revert st. induction l as [|e l IH]; intros st.
  - simpl. by destruct (i_metrics st !! key).
  - simpl. rewrite IH. unfold initElement.
    destruct (i_metrics st !! makeKey e) eqn:He; simpl.
    + destruct (i_metrics st !! key) eqn:Hk; [done|].
      rewrite filter_cons_False; [done|]. intros Heq. congruence.
    + destruct (decide (makeKey e = key)) as [<-|Hne].
      * rewrite lookup_insert_eq, He. by rewrite filter_cons_True.
      * rewrite lookup_insert_ne by done.
        by rewrite filter_cons_False.
Qed.

(** X3: the entry found under a key in the registry built by
    [initialiseMetrics] is the definition (name and description, no object
    type, nil values) of the first visited element with that key; there is
    no entry when no visited element has the key. *)
Theorem initialiseMetrics_lookup (Classes : Catalog) (key : string) :
  (initialiseMetrics (float64:=float64) Classes).1.1 !! key =
  (λ e, {| name := e.(MonElement.MetricName);
           description := e.(MonElement.Description);
           objectType := false; values := None |})
    <$> head (filter (λ e, makeKey e = key) (nonParamElements Classes)).
Proof.
  rewrite initialiseMetrics_loops, init_lookup. simpl. by rewrite lookup_empty.
Qed.

Lemma init_count (l : list MonElement.t) (st : initState') :
  (size (i_metrics (foldl initElement st l))
     + length (i_log (foldl initElement st l)) =
   size (i_metrics st) + length (i_log st) + length l)%nat.
Proof.
  revert st. induction l as [|e l IH]; intros st; simpl; [lia|].
  rewrite IH. unfold initElement.
  destruct (i_metrics st !! makeKey e) eqn:He; simpl.
  - rewrite length_app. simpl. lia.
  - rewrite map_size_insert_None by done. lia.
Qed.

(** X4: every element visited by [initialiseMetrics] either gets an entry
    or is reported: the number of entries of the registry plus the number
    of lines logged is the number of visited elements. *)
Theorem initialiseMetrics_count (Classes : Catalog) :
  (size (initialiseMetrics (float64:=float64) Classes).1.1
     + length (initialiseMetrics (float64:=float64) Classes).2
   = length (nonParamElements Classes))%nat.
Proof.
  pose proof (init_count (nonParamElements Classes)
    {| i_metrics := (∅ : Registry); i_validMetrics := true; i_log := [] |}) as H.
  simpl in H. rewrite map_size_empty in H.
  unfold initialiseMetrics. rewrite initLoops_flat.
  destruct (negb _); simpl; lia.
Qed.

End Builder.

(** ** Further properties of the updater *)

Section Updater.
Context {float64 : Type} (Normalise : MonElement.t → string → Z → float64).

Local Abbreviation Registry := (gmap string (metricData float64)).

(** The entry under a key after the visit of a list of elements: the last
    element with that key has written its samples. *)
Lemma foldl_refresh_lookup (l : list MonElement.t) (m : Registry) (key : string) :
  foldl (refresh Normalise) m l !! key =
  match last (filter (λ e, makeKey e = key) l) with
  | Some e => (λ metric, setValues metric (normalisedValues Normalise e)) <$> m !! key
  | None => m !! key
  end.
Proof.
  induction l as [|x l IH] using rev_ind; [done|].
  rewrite foldl_app, filter_app. simpl. rewrite refresh_lookup, IH.
  rewrite filter_cons, filter_nil.
  destruct (decide (makeKey x = key)) as [Hx|Hx].
  - rewrite last_snoc.
    destruct (last (filter _ l)); [|done]. by destruct (m !! key).
  - by rewrite app_nil_r.
Qed.

(** X5: a call of [updateMetrics] that returns leaves the key set of the
    registry, and under every key the name, the description and the object
    type, as they were; an entry whose key is the key of no visited element
    is left as it was altogether. *)
Theorem updateMetrics_keeps_definitions (registry : Registry) (Classes : Catalog) :
  covers registry (nonParamElements Classes) →
  ∃ registry' Classes',
    updateMetrics Normalise registry Classes = Some (registry', Classes')
    ∧ dom registry' = dom registry
    ∧ (∀ key metric', registry' !! key = Some metric' →
         ∃ metric, registry !! key = Some metric
                   ∧ name metric' = name metric
                   ∧ description metric' = description metric
                   ∧ objectType metric' = objectType metric)
    ∧ (∀ key, key ∉ makeKey <$> nonParamElements Classes →
         registry' !! key = registry !! key).
Proof.
  intros Hc. eexists _, _. split; [by apply updateMetrics_ok|].
  split; [|split].
  - apply set_eq. intros key. rewrite !elem_of_dom. apply foldl_refresh_is_Some.
  - intros key metric'. rewrite foldl_refresh_lookup.
    destruct (last _) as [e|]; [|by eexists].
    destruct (registry !! key) as [metric|]; [|done].
    intros [= <-]. by exists metric.
  - intros key Hkey. by apply foldl_refresh_other.
Qed.

(** X6: after a call of [updateMetrics] that returns, the [values] map of
    the entry of a visited element is a fresh map holding, for every label
    of that element's cache and no other, the normalised sample, provided no
    element visited later has the same key. *)
Theorem updateMetrics_values
    (registry : Registry) (Classes : Catalog)
    (before after : list MonElement.t) (e : MonElement.t) :
  covers registry (nonParamElements Classes) →
  nonParamElements Classes = before ++ e :: after →
  makeKey e ∉ makeKey <$> after →
  ∃ registry' Classes' metric fresh,
    updateMetrics Normalise registry Classes = Some (registry', Classes')
    ∧ registry' !! makeKey e = Some metric
    ∧ values metric = Some fresh
    ∧ ∀ label, fresh !! label = Normalise e label <$> MonElement.Values e !! label.
Proof.
  intros Hc Hsplit Hlast.
  destruct (refreshed_last Normalise before after e registry Hlast) as (metric & Hm & Hv).
  { unfold covers in Hc. rewrite Forall_forall in Hc. apply Hc.
    rewrite Hsplit. apply elem_of_app. right. by left. }
  exists (foldl (refresh Normalise) registry (nonParamElements Classes)),
         (clearCaches Classes), metric, (normalisedValues Normalise e).
  split; [by apply updateMetrics_ok|]. split; [by rewrite Hsplit|].
  split; [done|]. apply normalisedValues_lookup.
Qed.

Lemma clearCache_idemp (e : MonElement.t) : clearCache (clearCache e) = clearCache e.
Proof. done. Qed.

Lemma clearCaches_idemp (Classes : Catalog) :
  clearCaches (clearCaches Classes) = clearCaches Classes.
Proof.
  unfold clearCaches. rewrite <- list_fmap_compose. apply list_fmap_ext.
  intros _ c _. unfold clearClass. simpl. f_equal.
  rewrite <- list_fmap_compose. apply list_fmap_ext.
  intros _ t _. simpl. unfold clearType, parameterised.
  destruct (Contains (ObjectTopic t) "%s") eqn:Ht; simpl; rewrite Ht; [done|].
  f_equal. rewrite <- list_fmap_compose. by apply list_fmap_ext.
Qed.

(** X7: a call of [updateMetrics] that returns keeps the classes, the types
    and their topics; in a type whose topic does not contain "%s" every
    element comes out with its names and an empty cache; a type whose topic
    contains "%s" comes out as it was, cached samples included. *)
Theorem updateMetrics_catalog (registry : Registry) (Classes : Catalog) :
  covers registry (nonParamElements Classes) →
  ∃ registry' Classes',
    updateMetrics Normalise registry Classes = Some (registry', Classes')
    ∧ Forall2
        (λ metricClass metricClass',
           Forall2
             (λ metricType metricType',
                ObjectTopic metricType' = ObjectTopic metricType
                ∧ if Contains (ObjectTopic metricType) "%s"
                  then Elements metricType' = Elements metricType
                  else Forall2
                         (λ e e',
                            e'.(MonElement.MetricName) = e.(MonElement.MetricName)
                            ∧ e'.(MonElement.Description) = e.(MonElement.Description)
                            ∧ e'.(MonElement.Parent) = e.(MonElement.Parent)
                            ∧ e'.(MonElement.Values) = ∅)
                         (Elements metricType) (Elements metricType'))
             (Types metricClass) (Types metricClass'))
        Classes Classes'.
Proof.
  intros Hc. eexists _, _. split; [by apply updateMetrics_ok|].
  unfold clearCaches. apply Forall2_fmap_r, Forall_Forall2_diag, Forall_forall.
  intros c _. unfold clearClass. simpl.
  apply Forall2_fmap_r, Forall_Forall2_diag, Forall_forall.
  intros t _. unfold clearType, parameterised.
  destruct (Contains (ObjectTopic t) "%s") eqn:Ht; simpl; rewrite ?Ht; [done|].
  split; [done|]. simpl.
  apply Forall2_fmap_r, Forall_Forall2_diag, Forall_forall. by intros e _.
Qed.

(** X8: once a call of [updateMetrics] has emptied the caches, further
    calls change nothing as long as nothing is cached: the second call
    returns the catalog it was given, and the third call returns the
    registry and the catalog of the second. *)
Theorem updateMetrics_settles (registry : Registry) (Classes : Catalog) :
  covers registry (nonParamElements Classes) →
  ∃ registry1 Classes1 registry2,
    updateMetrics Normalise registry Classes = Some (registry1, Classes1)
    ∧ updateMetrics Normalise registry1 Classes1 = Some (registry2, Classes1)
    ∧ updateMetrics Normalise registry2 Classes1 = Some (registry2, Classes1).
Proof.
  intros Hc.
  set (es := nonParamElements Classes).
  set (registry1 := foldl (refresh Normalise) registry es).
  set (registry2 := foldl (refresh Normalise) registry1 (clearCache <$> es)).
  assert (Hc1 : covers registry1 (nonParamElements (clearCaches Classes))).
  { rewrite nonParamElements_clearCaches. apply covers_foldl_refresh.
    eapply covers_keys; [|exact Hc]. by rewrite keys_clearCache. }
  assert (Hc2 : covers registry2 (nonParamElements (clearCaches Classes))).
  { by apply covers_foldl_refresh. }
  exists registry1, (clearCaches Classes), registry2.
  split; [by apply updateMetrics_ok|]. split.
  - rewrite updateMetrics_ok by done.
    by rewrite clearCaches_idemp, nonParamElements_clearCaches.
  - rewrite updateMetrics_ok by done.
    rewrite clearCaches_idemp, nonParamElements_clearCaches. fold es.
    f_equal. f_equal. apply map_eq. intros key.
    rewrite foldl_refresh_lookup. unfold registry2 at 1.
    destruct (last _) as [e|] eqn:Hlast; [|done].
    fold registry2. unfold registry2. rewrite foldl_refresh_lookup, Hlast.
    by destruct (registry1 !! key).
Qed.

End Updater.

(** ** Further properties of the worker *)

Ltac not_among :=
  let H := fresh "Hin" in
  intros H;
  repeat match type of H with
    | _ ∈ _ ++ _ => apply elem_of_app in H as [H|H]
    | _ ∈ _ :: _ => apply elem_of_cons in H as [H|H]
    | _ ∈ [] => by apply elem_of_nil in H
    | _ ∈ _ <$> _ => apply list_elem_of_fmap in H as (? & H & ?)
    | _ ∈ (if ?b then _ else _) => destruct b
    | _ = _ => discriminate H
    | _ ∈ ?f ?l1 ?l2 => progress change (f l1 l2) with (l1 ++ l2) in H
    end.

Section Serving.
Context {float64 : Type} (Normalise : MonElement.t → string → Z → float64).

Local Abbreviation Registry := (gmap string (metricData float64)).

(** X11: a connection attempt leads into the inner loop exactly when both
    [InitConnectionStats] and [DiscoverAndSubscribe] return nil. It then
    replaces the registry by the one built from the discovered catalog,
    whatever error [initialiseMetrics] returns. Otherwise the registry and
    [first] stay as they were, the error is logged, [EndConnection] is
    called and the worker sleeps before the next test of [keepRunning]. *)
Theorem connect_attempt qmName (w : Worker float64) (c : connection) :
  pc w = AtConnect →
  ∃ w' acts,
    step Normalise qmName w (Connect c) = Some (w', acts)
    ∧ (pc w' = AtPublications ↔
       InitConnectionStats c = None ∧ DiscoverAndSubscribe c = None)
    ∧ (pc w' = AtPublications →
         metrics w' = (initialiseMetrics (float64:=float64) (discovered c)).1.1
         ∧ catalog w' = discovered c ∧ first w' = false ∧ err w' = None
         ∧ acts = CallDoConnect None :: (if first w then [WgDone] else [])
                  ++ CallInitialiseMetrics
                  :: (LogErrorf <$> (initialiseMetrics (float64:=float64) (discovered c)).2))
    ∧ (pc w' ≠ AtPublications →
         ∃ msg, doConnect qmName c = Some msg
                ∧ pc w' = AtLoopTest ∧ metrics w' = metrics w ∧ first w' = first w
                ∧ acts = [CallDoConnect (Some msg); LogErrorf ("Metrics Error: " +:+ msg);
                          EndConnection; Sleep 10]).
Proof.
  intros Hpc. unfold step. rewrite Hpc.
  unfold connectStmt, innerLoopTest, doConnect, catalogAfter.
  destruct (InitConnectionStats c) as [cause|] eqn:Hi.
  - cbn. eexists _, _. split; [done|]. cbn. split; [|split].
    + split; [done|]. by intros [? _].
    + done.
    + intros _. by eexists.
  - destruct (DiscoverAndSubscribe c) as [cause|] eqn:Hd.
    + cbn. eexists _, _. split; [done|]. cbn. split; [|split].
      * split; [done|]. by intros [_ ?].
      * done.
      * intros _. by eexists.
    + destruct (initialiseMetrics (discovered c)) as [[m0 e0] lg] eqn:Hinit.
      cbn. eexists _, _. split; [done|]. cbn. split; [done|]. split; [|done].
      intros _. by rewrite app_nil_r.
Qed.

Lemma step_no_panic qmName (w w1 : Worker float64) ev acts :
  ready w →
  step Normalise qmName w ev = Some (w1, acts) →
  pc w1 ≠ Panicked ∧ (Panic ∉ acts).
Proof.
  intros Hr.
  unfold step, publicationsStmt, selectStmt, connectStmt, innerLoopTest.
  destruct (pc w) eqn:Hpc; destruct ev as [[]|c|e cache|[]|]; try done.
  - intros [= <- <-]. split; [done|not_among].
  - intros [= <- <-]. split; [done|not_among].
  - destruct (doConnect qmName c) as [e|].
    + cbn. intros [= <- <-]. split; [done|not_among].
    + destruct (initialiseMetrics _) as [[m0 e0] lg]. cbn.
      intros [= <- <-]. split; [done|not_among].
  - intros [= <- <-]. split; [done|not_among].
  - unfold ready in Hr. rewrite Hpc in Hr.
    rewrite updateMetrics_ok by done. cbn. rewrite ?Hpc. cbn.
    destruct (err w); intros [= <- <-]; (split; [cbn; congruence|not_among]).
  - rewrite Hpc. destruct (err w); intros [= <- <-]; (split; [done|not_among]).
  - rewrite Hpc. destruct (err w); intros [= <- <-]; (split; [done|not_among]).
Qed.

Lemma run_no_panic qmName script (w w' : Worker float64) trace :
  ready w → pc w ≠ Panicked →
  runFrom Normalise qmName w script = Some (w', trace) →
  pc w' ≠ Panicked ∧ (Panic ∉ trace).
Proof.
  revert w trace. induction script as [|ev script IH]; intros w trace Hr Hpc.
  - intros [= <- <-]. split; [done|apply not_elem_of_nil].
  - simpl. destruct (step Normalise qmName w ev) as [[w1 acts1]|] eqn:Hs; [|done].
    destruct (runFrom Normalise qmName w1 script) as [[w2 acts2]|] eqn:Hrun; [|done].
    intros [= <- <-].
    destruct (step_no_panic _ _ _ _ _ Hr Hs) as [Hpc1 Hacts].
    destruct (IH w1 acts2 (step_ready _ _ _ _ _ _ Hr Hs) Hpc1 Hrun) as [Hpc2 Htrace].
    split; [done|]. by apply not_elem_of_app.
Qed.

(** X12: no run of [processMetrics] panics. Whenever the worker calls
    [updateMetrics] the registry built at the last connection holds the key
    of every element visited, so that the write through a nil [*metricData]
    does not occur. *)
Theorem processMetrics_never_panics qmName script (w : Worker float64) trace :
  processMetrics Normalise qmName script = Some (w, trace) →
  pc w ≠ Panicked ∧ (Panic ∉ trace).
Proof. apply run_no_panic; by unfold ready. Qed.

Lemma run_history_at qmName script (w w' : Worker float64) trace h :
  historyAt w h →
  runFrom Normalise qmName w script = Some (w', trace) →
  historyAt w' (h ++ trace).
Proof.
  revert w trace h. induction script as [|ev script IH]; intros w trace h Hh.
  - intros [= <- <-]. by rewrite app_nil_r.
  - simpl. destruct (step Normalise qmName w ev) as [[w1 acts1]|] eqn:Hs; [|done].
    destruct (runFrom Normalise qmName w1 script) as [[w2 acts2]|] eqn:Hrun; [|done].
    intros [= <- <-]. rewrite app_assoc. eapply IH; [|exact Hrun].
    by eapply step_history.
Qed.

Lemma step_returns qmName (w w1 : Worker float64) ev acts :
  step Normalise qmName w ev = Some (w1, acts) →
  pc w ≠ Returned
  ∧ ((pc w1 = Returned ∨ Return ∈ acts) →
     ev = KeepRunning false ∧ pc w = AtLoopTest ∧ pc w1 = Returned
     ∧ acts = [TestKeepRunning false; Return]).
Proof.
  unfold step, publicationsStmt, selectStmt, connectStmt, innerLoopTest.
  destruct (pc w) eqn:Hpc; destruct ev as [[]|c|e cache|[]|]; try done.
  - intros [= <- <-]. split; [done|]. intros [?|Hin]; [done|].
    exfalso. revert Hin. not_among.
  - by intros [= <- <-].
  - destruct (doConnect qmName c) as [e|].
    + cbn. intros [= <- <-]. split; [done|]. intros [?|Hin]; [done|].
      exfalso. revert Hin. not_among.
    + destruct (initialiseMetrics _) as [[m0 e0] lg]. cbn.
      intros [= <- <-]. split; [done|]. intros [?|Hin]; [done|].
      exfalso. revert Hin. not_among.
  - intros [= <- <-]. split; [done|]. intros [?|Hin]; [done|].
    exfalso. revert Hin. not_among.
  - destruct (updateMetrics _ _ _) as [[m1 c1]|]; cbn; rewrite ?Hpc; cbn.
    + destruct (err w); intros [= <- <-]; (split; [done|]); intros [?|Hin];
        try done; exfalso; revert Hin; not_among.
    + intros [= <- <-]. split; [done|]. intros [?|Hin]; [done|].
      exfalso. revert Hin. not_among.
  - rewrite Hpc. destruct (err w); intros [= <- <-]; (split; [done|]);
      intros [?|Hin]; try done; exfalso; revert Hin; not_among.
  - rewrite Hpc. destruct (err w); intros [= <- <-]; (split; [done|]);
      intros [?|Hin]; try done; exfalso; revert Hin; not_among.
Qed.

Lemma run_returned qmName script (w w' : Worker float64) trace :
  runFrom Normalise qmName w script = Some (w', trace) →
  Return ∈ trace → pc w' = Returned.
Proof.
  revert w trace. induction script as [|ev script IH]; intros w trace.
  - intros [= <- <-] Hin. by apply elem_of_nil in Hin.
  - simpl. destruct (step Normalise qmName w ev) as [[w1 acts1]|] eqn:Hs; [|done].
    destruct (runFrom Normalise qmName w1 script) as [[w2 acts2]|] eqn:Hrun; [|done].
    intros [= <- <-] [Hin|Hin]%elem_of_app; [|by eapply IH].
    apply step_returns in Hs as [_ Hs].
    destruct Hs as (_ & _ & Hpc1 & _); [by right|].
    destruct script as [|ev' script]; [by injection Hrun as <- _|].
    simpl in Hrun.
    destruct (step Normalise qmName w1 ev') as [[w3 acts3]|] eqn:Hs'; [|done].
    by apply step_returns in Hs' as [? _].
Qed.

(** X13: [processMetrics] returns only at a test of [keepRunning] that
    finds it false, and that test is made only before the first connection
    attempt or after a teardown and its sleep: a run is over exactly when
    its last event is that test, the return is then the last thing done,
    and a worker serving a connection does not return before the connection
    is ended, whatever the flag. *)
Theorem processMetrics_returns qmName script (w : Worker float64) trace :
  processMetrics Normalise qmName script = Some (w, trace) →
  (pc w = Returned ↔ ∃ script', script = script' ++ [KeepRunning false])
  ∧ (pc w = Returned ↔ Return ∈ trace)
  ∧ (pc w = Returned →
       trace = [TestKeepRunning false; Return]
       ∨ ∃ before, trace = before ++ [EndConnection; Sleep 10;
                                      TestKeepRunning false; Return]).
Proof.
  unfold processMetrics. intros Hrun.
  destruct script as [|ev script _] using rev_ind.
  { injection Hrun as <- <-. split; [|split]; [split| |done].
    - done.
    - intros [script' Heq]. by destruct script'.
    - split; [done|]. intros Hin. by apply elem_of_nil in Hin. }
  rewrite runFrom_app in Hrun.
  destruct (runFrom Normalise qmName start script) as [[w1 t1]|] eqn:Hrun1; [|done].
  simpl in Hrun.
  destruct (step Normalise qmName w1 ev) as [[w2 acts]|] eqn:Hs; [|done].
  injection Hrun as <- <-. rewrite app_nil_r.
  pose proof (step_returns _ _ _ _ _ Hs) as [Hpc1 Hret].
  assert (Hlast : ev = KeepRunning false → pc w2 = Returned).
  { intros ->. revert Hs. unfold step. destruct (pc w1); try done.
    by intros [= <- _]. }
  split; [|split].
  - split.
    + intros Hpc. destruct Hret as (-> & _); [by left|]. by exists script.
    + intros [script' Heq]. apply app_inj_tail in Heq as [_ ->]. by apply Hlast.
  - split.
    + intros Hpc. destruct Hret as (_ & _ & _ & ->); [by left|].
      apply elem_of_app. right. by right; left.
    + intros [Hin|Hin]%elem_of_app; [|by apply Hret; right].
      exfalso. apply Hpc1. by eapply run_returned.
  - intros Hpc. destruct Hret as (_ & Hloop & _ & ->); [by left|].
    assert (Hh : historyAt w1 ([] ++ t1)).
    { eapply run_history_at; [|exact Hrun1]. by left. }
    unfold historyAt in Hh. rewrite Hloop in Hh. simpl in Hh.
    destruct Hh as [->|[before ->]]; [by left|].
    right. exists before. by rewrite <- app_assoc.
Qed.

End Serving.

Section Requests.
Context {float64 : Type} (Normalise : MonElement.t → string → Z → float64).

Local Abbreviation Registry := (gmap string (metricData float64)).

Lemma send_second {A} (P : A → Prop) (a x : A) (rest pre post : list A) :
  P x → ¬ P a → (∀ y, y ∈ rest → ¬ P y) →
  a :: x :: rest = pre ++ x :: post → pre = [a].
Proof.
  intros Hx Ha Hrest Heq.
  destruct pre as [|b [|b' pre]]; simpl in Heq.
  - injection Heq as <- _. done.
  - by injection Heq as <- _.
  - injection Heq as _ _ ->. exfalso. apply (Hrest x); [|done].
    apply elem_of_app. right. by left.
Qed.

Lemma send_third {A} (P : A → Prop) (a b x : A) (rest pre post : list A) :
  P x → ¬ P a → ¬ P b → (∀ y, y ∈ rest → ¬ P y) →
  a :: b :: x :: rest = pre ++ x :: post → pre = [a; b].
Proof.
  intros Hx Ha Hb Hrest Heq.
  destruct pre as [|c [|c' [|c'' pre]]]; simpl in Heq.
  - injection Heq as <- _. done.
  - injection Heq as _ <- _. done.
  - by injection Heq as <- <- _.
  - injection Heq as _ _ _ ->. exfalso. apply (Hrest x); [|done].
    apply elem_of_app. right. by left.
Qed.

Lemma step_sends qmName (w w1 : Worker float64) ev acts pre r post :
  step Normalise qmName w ev = Some (w1, acts) →
  acts = pre ++ Send r :: post →
  (pre = [Receive false] ∨ pre = [Receive true; CallUpdateMetrics])
  ∧ r = metrics w1.
Proof.
  intros Hs Hacts.
  assert (Hin : Send r ∈ acts).
  { rewrite Hacts. apply elem_of_app. right. by left. }
  assert (Hsend : ∀ (m : Registry) (l : list (Action float64)),
            l = [] ∨ (∃ line, l = [LogErrorf line; EndConnection; Sleep 10]) →
            ∀ y, y ∈ l → ¬ ∃ r0, y = Send r0).
  { intros _ l [->|[line ->]] y Hy [r0 ->]; revert Hy; not_among. }
  revert Hs. unfold step, publicationsStmt, selectStmt, connectStmt, innerLoopTest.
  destruct (pc w) eqn:Hpc; destruct ev as [[]|c|e cache|[]|]; try done.
  - intros [= <- <-]. exfalso. revert Hin. not_among.
  - intros [= <- <-]. exfalso. revert Hin. not_among.
  - destruct (doConnect qmName c) as [e|].
    + cbn. intros [= <- <-]. exfalso. revert Hin. not_among.
    + destruct (initialiseMetrics _) as [[m0 e0] lg]. cbn.
      intros [= <- <-]. exfalso. revert Hin. not_among.
  - intros [= <- <-]. exfalso. revert Hin. not_among.
  - destruct (updateMetrics _ _ _) as [[m1 c1]|]; cbn; rewrite ?Hpc; cbn.
    + intros Hs.
      assert (Hshape : ∃ rest, acts = Receive true :: CallUpdateMetrics :: Send m1 :: rest
                ∧ (rest = [] ∨ ∃ line, rest = [LogErrorf line; EndConnection; Sleep 10])
                ∧ metrics w1 = m1).
      { destruct (err w); injection Hs as <- <-; eexists; (split; [done|]);
          (split; [|done]); [right; by eexists|by left]. }
      destruct Hshape as (rest & Hshape & Hrest & Hm).
      assert (Hr : r = m1).
      { rewrite Hshape in Hin.
        apply elem_of_cons in Hin as [?|Hin]; [done|].
        apply elem_of_cons in Hin as [?|Hin]; [done|].
        apply elem_of_cons in Hin as [[= ->]|Hin]; [done|].
        exfalso. apply (Hsend m1 rest Hrest _ Hin). by eexists. }
      subst r. split; [|done]. right.
      apply (send_third (λ a, ∃ r0, a = Send r0) _ _ (Send m1) rest pre post);
        [by eexists|by intros [? ?]|by intros [? ?]|by apply (Hsend m1)|].
      by rewrite <- Hshape.
    + intros [= <- <-]. exfalso. revert Hin. not_among.
  - rewrite Hpc. intros Hs.
    assert (Hshape : ∃ rest, acts = Receive false :: Send (metrics w) :: rest
              ∧ (rest = [] ∨ ∃ line, rest = [LogErrorf line; EndConnection; Sleep 10])
              ∧ metrics w1 = metrics w).
    { destruct (err w); injection Hs as <- <-; eexists; (split; [done|]);
        (split; [|done]); [right; by eexists|by left]. }
    destruct Hshape as (rest & Hshape & Hrest & Hm).
    assert (Hr : r = metrics w).
    { rewrite Hshape in Hin.
      apply elem_of_cons in Hin as [?|Hin]; [done|].
      apply elem_of_cons in Hin as [[= ->]|Hin]; [done|].
      exfalso. apply (Hsend (metrics w) rest Hrest _ Hin). by eexists. }
    subst r. split; [|done]. left.
    apply (send_second (λ a, ∃ r0, a = Send r0) _ (Send (metrics w)) rest pre post);
      [by eexists|by intros [? ?]|by apply (Hsend (metrics w))|].
    by rewrite <- Hshape.
  - rewrite Hpc. destruct (err w); intros [= <- <-]; exfalso; revert Hin; not_among.
Qed.

(** X14: the worker never sends a registry unasked. Every send on the
    response channel in a run comes right after the receipt of a request
    with a false flag, or right after the receipt of a request with a true
    flag and the call of [updateMetrics] it causes. *)
Theorem sends_are_replies qmName script (w : Worker float64) trace pre r post :
  processMetrics Normalise qmName script = Some (w, trace) →
  trace = pre ++ Send r :: post →
  (∃ before, pre = before ++ [Receive false])
  ∨ (∃ before, pre = before ++ [Receive true; CallUpdateMetrics]).
Proof.
  unfold processMetrics. generalize (start (float64:=float64)).
  revert trace pre. induction script as [|ev script IH]; intros trace pre w0.
  - intros [= _ <-] Heq. by destruct pre.
  - simpl. destruct (step Normalise qmName w0 ev) as [[w1 acts1]|] eqn:Hs; [|done].
    destruct (runFrom Normalise qmName w1 script) as [[w2 acts2]|] eqn:Hrun; [|done].
    intros [= <- <-] Heq.
    apply app_eq_split in Heq as [(mid & Hacts & ->)|(mid & -> & ->)].
    + destruct (step_sends _ _ _ _ _ _ _ _ Hs Hacts) as [[->| ->] _].
      * left. by exists [].
      * right. by exists [].
    + destruct (IH _ mid w1 Hrun eq_refl) as [[before ->]|[before ->]].
      * left. exists (acts1 ++ before). by rewrite app_assoc.
      * right. exists (acts1 ++ before). by rewrite app_assoc.
Qed.

Lemma connectedAfter_app (h acts : list (Action float64)) :
  connectedAfter h → EndConnection ∉ acts → connectedAfter (h ++ acts).
Proof.
  intros (before & since & -> & Hsince) Hacts.
  exists before, (since ++ acts). split; [by rewrite <- app_assoc|].
  by apply not_elem_of_app.
Qed.

Lemma step_serving qmName (w w1 : Worker float64) ev acts h :
  servingAt w h →
  step Normalise qmName w ev = Some (w1, acts) →
  servingAt w1 (h ++ acts).
Proof.
  unfold step, publicationsStmt, selectStmt, connectStmt, innerLoopTest, servingAt.
  destruct (pc w) eqn:Hpc; destruct ev as [[]|c|e cache|[]|]; try done.
  - by intros _ [= <- <-].
  - by intros _ [= <- <-].
  - intros _. destruct (doConnect qmName c) as [e|].
    + cbn. by intros [= <- <-].
    + destruct (initialiseMetrics _) as [[m0 e0] lg]. cbn.
      intros [= <- <-]. cbn. eexists h, _. split; [done|].
      not_among.
  - intros Hh [= <- <-]. cbn. apply connectedAfter_app; [done|not_among].
  - intros Hh. destruct (updateMetrics _ _ _) as [[m1 c1]|]; cbn; rewrite ?Hpc; cbn.
    + destruct (err w) as [e|]; intros [= <- <-]; cbn; [done|].
      apply connectedAfter_app; [done|not_among].
    + by intros [= <- <-].
  - intros Hh. rewrite Hpc. destruct (err w) as [e|]; intros [= <- <-]; cbn; [done|].
    apply connectedAfter_app; [done|not_among].
  - intros Hh. rewrite Hpc. destruct (err w) as [e|]; intros [= <- <-]; cbn; [done|].
    apply connectedAfter_app; [done|not_among].
Qed.

Lemma step_inner_head qmName (w w1 : Worker float64) ev acts pre a post :
  step Normalise qmName w ev = Some (w1, acts) →
  acts = pre ++ a :: post →
  (∃ e, a = CallProcessPublications e) ∨ (∃ b, a = Receive b) →
  pre = [] ∧ (pc w = AtPublications ∨ pc w = AtSelect).
Proof.
  intros Hs Hacts Ha.
  assert (Hin : a ∈ acts).
  { rewrite Hacts. apply elem_of_app. right. by left. }
  assert (Hhead : ∀ x (rest : list (Action float64)),
            acts = x :: rest →
            (∀ y, y ∈ rest →
               ¬ ((∃ e, y = CallProcessPublications e) ∨ (∃ b, y = Receive b))) →
            pre = []).
  { intros x rest Hx Hrest.
    apply (head_only (λ y, (∃ e, y = CallProcessPublications e) ∨ (∃ b, y = Receive b))
             x rest pre post a); [done..|by rewrite <- Hx]. }
  revert Hs. unfold step, publicationsStmt, selectStmt, connectStmt, innerLoopTest.
  destruct (pc w) eqn:Hpc; destruct ev as [[]|c|e cache|[]|]; try done.
  - intros [= <- <-]. exfalso. destruct Ha as [[? ->]|[? ->]]; revert Hin; not_among.
  - intros [= <- <-]. exfalso. destruct Ha as [[? ->]|[? ->]]; revert Hin; not_among.
  - destruct (doConnect qmName c) as [e|].
    + cbn. intros [= <- <-]. exfalso.
      destruct Ha as [[? ->]|[? ->]]; revert Hin; not_among.
    + destruct (initialiseMetrics _) as [[m0 e0] lg]. cbn.
      intros [= <- <-]. exfalso.
      destruct Ha as [[? ->]|[? ->]]; revert Hin; not_among.
  - intros [= <- <-]. split; [|by left]. eapply Hhead; [done|].
    intros y Hy. by apply elem_of_nil in Hy.
  - intros Hs. split; [|by right].
    destruct (updateMetrics _ _ _) as [[m1 c1]|]; cbn in Hs; rewrite ?Hpc in Hs;
      cbn in Hs.
    + destruct (err w); injection Hs as <- <-; (eapply Hhead; [done|]);
        intros y Hy [[? ->]|[? ->]]; revert Hy; not_among.
    + injection Hs as <- <-. eapply Hhead; [done|].
      intros y Hy [[? ->]|[? ->]]; revert Hy; not_among.
  - rewrite Hpc. intros Hs. split; [|by right].
    destruct (err w); injection Hs as <- <-; (eapply Hhead; [done|]);
      intros y Hy [[? ->]|[? ->]]; revert Hy; not_among.
  - rewrite Hpc. intros Hs. exfalso.
    destruct (err w); injection Hs as <- <-;
      destruct Ha as [[? ->]|[? ->]]; revert Hin; not_among.
Qed.

Lemma run_serving qmName script (w w' : Worker float64) trace h pre a post :
  servingAt w h →
  runFrom Normalise qmName w script = Some (w', trace) →
  trace = pre ++ a :: post →
  (∃ e, a = CallProcessPublications e) ∨ (∃ b, a = Receive b) →
  connectedAfter (h ++ pre).
Proof.
  revert w trace h pre. induction script as [|ev script IH]; intros w trace h pre Hh.
  - intros [= _ <-] Heq. by destruct pre.
  - simpl. destruct (step Normalise qmName w ev) as [[w1 acts1]|] eqn:Hs; [|done].
    destruct (runFrom Normalise qmName w1 script) as [[w2 acts2]|] eqn:Hrun; [|done].
    intros [= <- <-] Heq Ha.
    apply app_eq_split in Heq as [(mid & Hacts & ->)|(mid & -> & ->)].
    + destruct (step_inner_head _ _ _ _ _ _ _ _ Hs Hacts Ha) as [-> Hpc].
      rewrite app_nil_r. unfold servingAt in Hh.
      by destruct Hpc as [Hpc|Hpc]; rewrite Hpc in Hh.
    + rewrite app_assoc. eapply IH; [|exact Hrun|done..].
      by eapply step_serving.
Qed.

(** X15: the worker drains publications and takes requests only while a
    connection is up: before every call of [ProcessPublications] and every
    receipt of a request in a run there is a [doConnect] that returned nil
    with no [EndConnection] after it. *)
Theorem served_only_when_connected qmName script (w : Worker float64) trace pre a post :
  processMetrics Normalise qmName script = Some (w, trace) →
  trace = pre ++ a :: post →
  (∃ e, a = CallProcessPublications e) ∨ (∃ b, a = Receive b) →
  ∃ before since,
    pre = before ++ CallDoConnect None :: since ∧ (EndConnection ∉ since).
Proof.
  intros Hrun Heq Ha.
  by apply (run_serving qmName script start w trace [] pre a post).
Qed.

Lemma step_keeps_registry qmName (w w1 : Worker float64) ev acts :
  step Normalise qmName w ev = Some (w1, acts) →
  (∀ c, ev ≠ Connect c) → ev ≠ Request true →
  metrics w1 = metrics w ∧ first w1 = first w.
Proof.
  unfold step, publicationsStmt, selectStmt, connectStmt, innerLoopTest.
  destruct (pc w) eqn:Hpc; destruct ev as [[]|c|e cache|[]|]; try done.
  - by intros [= <- _].
  - by intros [= <- _].
  - intros _ Hc. by destruct (Hc c).
  - by intros [= <- _].
  - rewrite Hpc. by destruct (err w); intros [= <- _].
  - rewrite Hpc. by destruct (err w); intros [= <- _].
Qed.

(** X16: the registry the worker holds changes only when a connection is
    made or a request with a true flag is served. Draining publications,
    idle timeouts, requests with a false flag, losing the connection and
    tests of [keepRunning] leave it, and [first], as they are; so every
    registry sent meanwhile is the one held at the beginning. *)
Theorem registry_stable qmName script (w w' : Worker float64) trace :
  runFrom Normalise qmName w script = Some (w', trace) →
  (∀ ev, ev ∈ script → (∀ c, ev ≠ Connect c) ∧ ev ≠ Request true) →
  metrics w' = metrics w ∧ first w' = first w
  ∧ ∀ r, Send r ∈ trace → r = metrics w.
Proof.
  revert w trace. induction script as [|ev script IH]; intros w trace.
  - intros [= <- <-] _. split; [done|]. split; [done|].
    intros r Hin. by apply elem_of_nil in Hin.
  - simpl. destruct (step Normalise qmName w ev) as [[w1 acts1]|] eqn:Hs; [|done].
    destruct (runFrom Normalise qmName w1 script) as [[w2 acts2]|] eqn:Hrun; [|done].
    intros [= <- <-] Hev.
    destruct (Hev ev) as [Hc Hr]; [by left|].
    destruct (step_keeps_registry _ _ _ _ _ Hs Hc Hr) as [Hm Hf].
    destruct (IH w1 acts2 Hrun) as (Hm2 & Hf2 & Hsent).
    { intros ev' Hev'. apply Hev. by right. }
    split; [congruence|]. split; [congruence|].
    intros r [Hin|Hin]%elem_of_app.
    + apply list_elem_of_split in Hin as (pre & post & Hacts).
      destruct (step_sends _ _ _ _ _ _ _ _ Hs Hacts) as [_ ->]. done.
    + rewrite <- Hm. by apply Hsent.
Qed.

End Requests.

(** ** The further properties at the sample data *)

Lemma makeKey_injective_witness :
  slashFree "CPU" = true ∧ slashFree "SystemSummary" = true
  ∧ makeKey userCPU = makeKey userCPUAgain
  ∧ userCPU.(MonElement.MetricName) = userCPUAgain.(MonElement.MetricName).
Proof.
  assert (H1 : slashFree "CPU" = true) by reflexivity.
  assert (H2 : slashFree "SystemSummary" = true) by reflexivity.
  assert (H3 : makeKey userCPU = makeKey userCPUAgain) by reflexivity.
  destruct (makeKey_injective userCPU userCPUAgain H1 H2 H1 H2 H3) as (_ & _ & Hn).
  by repeat split.
Defined.

Lemma mixedCatalog_covered :
  covers (initialiseMetrics (float64:=Z) mixedCatalog).1.1 (nonParamElements mixedCatalog).
Proof. unfold covers. repeat constructor; vm_compute; eexists; reflexivity. Defined.

Lemma updateMetrics_keeps_definitions_witness :
  covers (initialiseMetrics (float64:=Z) mixedCatalog).1.1 (nonParamElements mixedCatalog)
  ∧ ∃ registry' Classes',
      updateMetrics rawSample (initialiseMetrics mixedCatalog).1.1 mixedCatalog
        = Some (registry', Classes')
      ∧ dom registry' = dom (initialiseMetrics (float64:=Z) mixedCatalog).1.1.
Proof.
  split; [exact mixedCatalog_covered|].
  destruct (updateMetrics_keeps_definitions rawSample _ mixedCatalog mixedCatalog_covered)
    as (registry' & Classes' & Hup & Hdom & _).
  by exists registry', Classes'.
Defined.

Lemma updateMetrics_values_witness :
  covers (initialiseMetrics (float64:=Z) mixedCatalog).1.1 (nonParamElements mixedCatalog)
  ∧ nonParamElements mixedCatalog = [] ++ userCPU :: [ramFree]
  ∧ (makeKey userCPU ∉ makeKey <$> [ramFree])
  ∧ ∃ registry' Classes' metric fresh,
      updateMetrics rawSample (initialiseMetrics mixedCatalog).1.1 mixedCatalog
        = Some (registry', Classes')
      ∧ registry' !! makeKey userCPU = Some metric
      ∧ values metric = Some fresh
      ∧ ∀ label, fresh !! label
                 = rawSample userCPU label <$> MonElement.Values userCPU !! label.
Proof.
  assert (H2 : nonParamElements mixedCatalog = [] ++ userCPU :: [ramFree])
    by reflexivity.
  assert (H3 : makeKey userCPU ∉ makeKey <$> [ramFree]) by compute_done.
  repeat (split; [done || exact mixedCatalog_covered|]).
  exact (updateMetrics_values rawSample _ mixedCatalog [] [ramFree] userCPU
           mixedCatalog_covered H2 H3).
Defined.

Lemma updateMetrics_catalog_witness :
  covers (initialiseMetrics (float64:=Z) mixedCatalog).1.1 (nonParamElements mixedCatalog)
  ∧ ∃ registry' Classes',
      updateMetrics rawSample (initialiseMetrics mixedCatalog).1.1 mixedCatalog
        = Some (registry', Classes')
      ∧ length Classes' = length mixedCatalog.
Proof.
  split; [exact mixedCatalog_covered|].
  destruct (updateMetrics_catalog rawSample _ mixedCatalog mixedCatalog_covered)
    as (registry' & Classes' & Hup & Hshape).
  exists registry', Classes'. split; [done|].
  symmetry. by eapply Forall2_length.
Defined.

Lemma updateMetrics_settles_witness :
  covers (initialiseMetrics (float64:=Z) mixedCatalog).1.1 (nonParamElements mixedCatalog)
  ∧ ∃ registry1 Classes1 registry2,
      updateMetrics rawSample (initialiseMetrics mixedCatalog).1.1 mixedCatalog
        = Some (registry1, Classes1)
      ∧ updateMetrics rawSample registry1 Classes1 = Some (registry2, Classes1)
      ∧ updateMetrics rawSample registry2 Classes1 = Some (registry2, Classes1).
Proof.
  split; [exact mixedCatalog_covered|].
  exact (updateMetrics_settles rawSample _ mixedCatalog mixedCatalog_covered).
Defined.

Lemma connect_attempt_witness :
  pc (goto AtConnect (start (float64:=Z))) = AtConnect
  ∧ ∃ w' acts,
      step rawSample "QM1" (goto AtConnect start) (Connect undiscovered) = Some (w', acts)
      ∧ pc w' = AtLoopTest
      ∧ acts = [CallDoConnect (Some "Failed to discover and subscribe to metrics: MQRC_NOT_AUTHORIZED");
                LogErrorf "Metrics Error: Failed to discover and subscribe to metrics: MQRC_NOT_AUTHORIZED";
                EndConnection; Sleep 10].
Proof.
  assert (Hpc : pc (goto AtConnect (start (float64:=Z))) = AtConnect) by reflexivity.
  split; [done|].
  destruct (connect_attempt rawSample "QM1" _ undiscovered Hpc)
    as (w' & acts & Hs & Hiff & _ & Hfail).
  destruct Hfail as (msg & Hmsg & Hloop & _ & _ & Hacts).
  { intros Hp. by apply Hiff in Hp as [_ ?]. }
  exists w', acts. split; [done|]. split; [done|].
  rewrite Hacts. by injection Hmsg as <-.
Defined.

Lemma processMetrics_never_panics_witness :
  ∃ (w : Worker Z) trace,
    processMetrics rawSample "QM1" stopScript = Some (w, trace)
    ∧ pc w ≠ Panicked ∧ (Panic ∉ trace).
Proof.
  destruct (processMetrics rawSample "QM1" stopScript) as [[w trace]|] eqn:Hrun;
    [|by vm_compute in Hrun].
  exists w, trace. split; [done|].
  exact (processMetrics_never_panics rawSample "QM1" stopScript w trace Hrun).
Defined.

Lemma processMetrics_returns_witness :
  ∃ (w : Worker Z) trace,
    processMetrics rawSample "QM1" stopScript = Some (w, trace)
    ∧ pc w = Returned
    ∧ (Return ∈ trace)
    ∧ (trace = [TestKeepRunning false; Return]
       ∨ ∃ before, trace = before ++ [EndConnection; Sleep 10;
                                      TestKeepRunning false; Return]).
Proof.
  destruct (processMetrics rawSample "QM1" stopScript) as [[w trace]|] eqn:Hrun;
    [|by vm_compute in Hrun].
  destruct (processMetrics_returns rawSample "QM1" stopScript w trace Hrun)
    as (Hlast & Hret & Hshape).
  assert (Hpc : pc w = Returned).
  { apply Hlast. by eexists (removelast stopScript). }
  exists w, trace. split; [done|]. split; [done|].
  split; [by apply Hret|by apply Hshape].
Defined.

Lemma sends_are_replies_witness :
  ∃ (w : Worker Z) trace pre r post,
    processMetrics rawSample "QM1" stopScript = Some (w, trace)
    ∧ trace = pre ++ Send r :: post
    ∧ ((∃ before, pre = before ++ [Receive false])
       ∨ (∃ before, pre = before ++ [Receive true; CallUpdateMetrics])).
Proof.
  destruct (processMetrics rawSample "QM1" stopScript) as [[w trace]|] eqn:Hrun;
    [|by vm_compute in Hrun].
  assert (Hin : Send (metrics w) ∈ trace).
  { vm_compute in Hrun. injection Hrun as <- <-.
    repeat first [apply list_elem_of_here | apply list_elem_of_further]. }
  apply list_elem_of_split in Hin as (pre & post & Heq).
  exists w, trace, pre, (metrics w), post. split; [done|]. split; [done|].
  exact (sends_are_replies rawSample "QM1" stopScript w trace pre _ post Hrun Heq).
Defined.

Lemma served_only_when_connected_witness :
  ∃ (w : Worker Z) trace pre post,
    processMetrics rawSample "QM1" stopScript = Some (w, trace)
    ∧ trace = pre ++ Receive true :: post
    ∧ ∃ before since,
        pre = before ++ CallDoConnect None :: since ∧ (EndConnection ∉ since).
Proof.
  destruct (processMetrics rawSample "QM1" stopScript) as [[w trace]|] eqn:Hrun;
    [|by vm_compute in Hrun].
  assert (Hin : Receive true ∈ trace).
  { vm_compute in Hrun. injection Hrun as _ <-.
    repeat first [apply list_elem_of_here | apply list_elem_of_further]. }
  apply list_elem_of_split in Hin as (pre & post & Heq).
  exists w, trace, pre, post. split; [done|]. split; [done|].
  apply (served_only_when_connected rawSample "QM1" stopScript w trace pre
           (Receive true) post Hrun Heq).
  right. by eexists.
Defined.

Lemma registry_stable_witness :
  ∃ (w w' : Worker Z) t1 t2,
    processMetrics rawSample "QM1" (servingScript ++ [Request true]) = Some (w, t1)
    ∧ runFrom rawSample "QM1" w
        [Publications None noNews; Request false;
         Publications (Some "MQRC_CONNECTION_BROKEN") noNews; Timeout;
         KeepRunning true] = Some (w', t2)
    ∧ (∀ ev, ev ∈ [Publications None noNews; Request false;
                   Publications (Some "MQRC_CONNECTION_BROKEN") noNews;
                   Timeout; KeepRunning true] →
             (∀ c, ev ≠ Connect c) ∧ ev ≠ Request true)
    ∧ metrics w' = metrics w ∧ first w' = first w
    ∧ (Send (metrics w) ∈ t2).
Proof.
  destruct (processMetrics rawSample "QM1" (servingScript ++ [Request true]))
    as [[w t1]|] eqn:Hrun1; [|by vm_compute in Hrun1].
  destruct (runFrom rawSample "QM1" w
              [Publications None noNews; Request false;
               Publications (Some "MQRC_CONNECTION_BROKEN") noNews; Timeout;
               KeepRunning true]) as [[w' t2]|] eqn:Hrun2.
  2: { vm_compute in Hrun1. injection Hrun1 as <- _. by vm_compute in Hrun2. }
  assert (Hev : ∀ ev, ev ∈ [Publications None noNews; Request false;
                            Publications (Some "MQRC_CONNECTION_BROKEN") noNews;
                            Timeout; KeepRunning true] →
                      (∀ c, ev ≠ Connect c) ∧ ev ≠ Request true).
  { intros ev Hin.
    repeat (apply elem_of_cons in Hin as [->|Hin]; [by split|]).
    by apply elem_of_nil in Hin. }
  destruct (registry_stable rawSample "QM1" _ w w' t2 Hrun2 Hev) as (Hm & Hf & _).
  exists w, w', t1, t2. repeat (split; [done|]).
  vm_compute in Hrun1. injection Hrun1 as <- _.
  vm_compute in Hrun2. injection Hrun2 as _ <-.
  repeat first [apply list_elem_of_here | apply list_elem_of_further].
Defined.
